(** * StatsClangd: merge and report of editor diagnostics

    A shallow embedding of [scripts/merge_diagnostics.py] and
    [scripts/report_diagnostics.py], and the properties of the
    deduplication, of the field extraction and of the two report tables.

    Python values decoded from JSON are the inductive [json]; a diagnostic
    record is a [gmap string json] (a decoded JSON object has one value per
    key).  Exceptions are explicit: a computation that may raise returns a
    [result]. *)

From Stdlib Require Import ZArith String Ascii List Floats.SpecFloat.
From Stdlib Require Import Sorting.Sorted Sorting.Permutation.
From stdpp Require Import gmap strings list pretty.

Set Warnings "-register-all,-clear-no-such-hyp".
Open Scope string_scope.
Open Scope list_scope.

(** ** Python values and builtins *)

Module Py.

(** What [json.load] returns: [None], [bool], [int], [float], [str], [list],
    [dict] with string keys.  A float is its IEEE-754 content.  A [dict] is
    held as the finite map of its keys: the order of its keys, which shows
    only in its [repr] and in the file it is dumped to, is not kept. *)
Inductive json :=
| JNull
| JBool (b : bool)
| JInt (z : Z)
| JFloat (f : spec_float)
| JStr (s : string)
| JList (l : list json)
| JDict (m : gmap string json).

(** The exceptions the two scripts can meet. *)
Inductive exn := TypeError | ValueError | OverflowError | OSError.

Inductive result (A : Type) :=
| Ok (a : A)
| Raise (e : exn).
Arguments Ok {A} a.
Arguments Raise {A} e.

Definition bind {A B : Type} (r : result A) (k : A -> result B) : result B :=
  match r with
  | Ok a => k a
  | Raise e => Raise e
  end.

(** A text is held as the bytes of its code points in UTF-8, a lone
    surrogate (which the JSON escape [\ud800] decodes to, and which a
    command-line argument that is not UTF-8 gives) as the three bytes
    [ED A0..BF xx].  A text with a lone surrogate has no UTF-8 encoding: to
    write it to a file opened with [encoding="utf-8"], or to print it,
    raises [UnicodeEncodeError], a [ValueError]. *)
Definition surrogate_lead (a b : ascii) : bool :=
  Nat.eqb (nat_of_ascii a) 237 && Nat.leb 160 (nat_of_ascii b).

Fixpoint utf8_encodable (s : string) : bool :=
  match s with
  | String a s' =>
      match s' with
      | String b _ => if surrogate_lead a b then false else utf8_encodable s'
      | EmptyString => true
      end
  | EmptyString => true
  end.

(** No text of the value, key or string, holds a lone surrogate. *)
Fixpoint dumpable (v : json) : bool :=
  match v with
  | JStr s => utf8_encodable s
  | JList l => forallb dumpable l
  | JDict m =>
      map_fold (fun k x acc => utf8_encodable k && dumpable x && acc) true m
  | _ => true
  end.

(** The part of the interpreter and of its library that is taken as given:
    [repr] of a float, list or dict (always a non-empty text); the parsing
    of a string by [int] ([None] stands for its [ValueError]); [str.strip];
    and what [json.dump(obj, f, ensure_ascii=False)] into a UTF-8 file does,
    of which it is known that it raises on a lone surrogate (it may also
    raise for other reasons, such as the depth of the value). *)
Class Builtins := {
  py_repr : json -> string;
  py_repr_nonempty : forall v, py_repr v <> "";
  py_int_of_str : string -> option Z;
  py_strip : string -> string;
  py_json_dump : json -> result unit;
  py_json_dump_surrogate :
    forall v, dumpable v = false -> exists e, py_json_dump v = Raise e
}.

(** [bool(v)]: the value tested by [or], [if] and the conditional
    expression. *)
Definition truthy (v : json) : bool :=
  match v with
  | JNull => false
  | JBool b => b
  | JInt z => negb (Z.eqb z 0)
  | JFloat (S754_zero _) => false
  | JFloat _ => true
  | JStr s => negb (String.eqb s "")
  | JList l => negb (Nat.eqb (length l) 0)
  | JDict m => negb (Nat.eqb (size m) 0)
  end.

(** [a or b] *)
Definition py_or (a b : json) : json := if truthy a then a else b.

(** [v is None] *)
Definition is_none (v : json) : bool :=
  match v with
  | JNull => true
  | _ => false
  end.

(** [d.get(k)] and [d.get(k, dflt)] *)
Definition get (d : gmap string json) (k : string) : json :=
  default JNull (d !! k).

Definition get_default (d : gmap string json) (k : string) (dflt : json) : json :=
  default dflt (d !! k).

(** [str(v)] *)
Definition str `{Builtins} (v : json) : string :=
  match v with
  | JNull => "None"
  | JBool true => "True"
  | JBool false => "False"
  | JInt z => pretty z
  | JStr s => s
  | JFloat _ | JList _ | JDict _ => py_repr v
  end.

(** [int(f)] on a float truncates toward zero; it raises [ValueError] on a
    NaN and [OverflowError] on an infinity. *)
Definition int_of_float (f : spec_float) : result Z :=
  match f with
  | S754_zero _ => Ok 0%Z
  | S754_infinity _ => Raise OverflowError
  | S754_nan => Raise ValueError
  | S754_finite s m e =>
      let mag := Z.shiftl (Z.pos m) e in
      Ok (if s then Z.opp mag else mag)
  end.

(** [int(v)] *)
Definition int `{Builtins} (v : json) : result Z :=
  match v with
  | JNull => Raise TypeError
  | JBool b => Ok (if b then 1%Z else 0%Z)
  | JInt z => Ok z
  | JFloat f => int_of_float f
  | JStr s =>
      match py_int_of_str s with
      | Some z => Ok z
      | None => Raise ValueError
      end
  | JList _ | JDict _ => Raise TypeError
  end.

(** [x == s] for a string [s] *)
Definition eq_str (x : json) (s : string) : bool :=
  match x with
  | JStr t => String.eqb t s
  | _ => false
  end.

(** [needle in hay] on strings *)
Fixpoint contains (needle hay : string) : bool :=
  if String.prefix needle hay then true
  else match hay with
       | EmptyString => false
       | String _ hay' => contains needle hay'
       end.

(** [[x for x in l if isinstance(x, dict)]] *)
Definition dicts_of (l : list json) : list (gmap string json) :=
  omap (fun x => match x with JDict m => Some m | _ => None end) l.

End Py.

Import Py.

Abbreviation record := (gmap string json).

(** ** merge_diagnostics.py *)

Module Merge.

Fixpoint extract_wrapped (data : record) (ks : list string) : list record :=
  match ks with
  | [] => []
  | k :: ks' =>
      match get data k with
      | JList v => dicts_of v
      | _ => extract_wrapped data ks'
      end
  end.

Definition extract_items (data : json) : list record :=
  match data with
  | JList l => dicts_of l
  | JDict m => extract_wrapped m ["problems"; "diagnostics"; "items"; "data"]
  | _ => []
  end.

Section Builtins.
Context {B : Builtins}.

Definition get_code (d : record) : string :=
  match get d "code" with
  | JDict code => str (py_or (get code "value") (JStr ""))
  | JStr code => code
  | _ => ""
  end.

Definition get_file (d : record) : string :=
  let fp := py_or (get d "resource")
             (py_or (get d "file") (py_or (get d "uri") (get d "path"))) in
  let fp := match fp with
            | JDict m => py_or (get m "path") (py_or (get m "fsPath") (get m "uri"))
            | _ => fp
            end in
  if truthy fp then str fp else "".

Definition str_or_empty (v : json) : string :=
  if is_none v then "" else str v.

Definition get_pos (d : record) : string * string :=
  let line := get d "startLineNumber" in
  let col := get d "startColumn" in
  if negb (is_none line) && negb (is_none col) then (str line, str col)
  else
    let '(line, col) :=
      match get_default d "range" (JDict ∅) with
      | JDict r =>
          match get_default r "start" (JDict ∅) with
          | JDict s => (get s "line", get s "character")
          | _ => (line, col)
          end
      | _ => (line, col)
      end in
    (str_or_empty line, str_or_empty col).

Definition key : Type := string * string * string * string * string.

Definition diag_key (d : record) : key :=
  let '(line, col) := get_pos d in
  (get_file d, get_code d, line, col, str (py_or (get d "message") (JStr ""))).

(** The deduplication loop of [main]: [seen] is the set of keys met so far,
    [uniq] the list built so far. *)
Fixpoint dedup_loop (seen : gset key) (uniq merged : list record) : list record :=
  match merged with
  | [] => uniq
  | d :: rest =>
      let k := diag_key d in
      if decide (k ∈ seen) then dedup_loop seen uniq rest
      else dedup_loop ({[k]} ∪ seen) (uniq ++ [d]) rest
  end.

Definition dedup (merged : list record) : list record := dedup_loop ∅ [] merged.

(** An input path: whether [os.path.isfile] holds for it, and what
    [read_json_file] does on it. *)
Record input_file := {
  is_file : bool;
  read_json_file : result json
}.

Record counters := {
  merged : list record;
  read_ok : nat;
  read_fail : nat
}.

(** The reading loop of [main]: a document that fails to load is counted and
    left out.  Its warning goes to standard error, which escapes what it
    cannot encode, so the handler raises nothing. *)
Fixpoint read_all (files : list input_file) (st : counters) : counters :=
  match files with
  | [] => st
  | fp :: rest =>
      match read_json_file fp with
      | Ok data =>
          read_all rest
            {| merged := merged st ++ extract_items data;
               read_ok := S (read_ok st);
               read_fail := read_fail st |}
      | Raise _ =>
          read_all rest
            {| merged := merged st;
               read_ok := read_ok st;
               read_fail := S (read_fail st) |}
      end
  end.

(** The command line, after [argparse]: of [--inputs] and [--inputs-dir]
    one is given and the other is [None]. *)
Record args := {
  inputs : option string;
  inputs_dir : option string;
  glob : string;
  output_path : string;
  no_dedup : bool;
  quiet : bool
}.

(** The file system as a run meets it: the sorted result of [glob.glob] on
    a directory and a pattern, what a path is as an input, what
    [os.makedirs] of its directory followed by [open(path, "w")] do for the
    output path, and what [print] of a text to standard output does (it
    raises when the stream cannot encode the text). *)
Record file_system := {
  glob_sorted : string -> string -> list string;
  file_at : string -> input_file;
  open_output : string -> result unit;
  print_stdout : string -> result unit
}.

(** [s.split(",")] *)
Fixpoint split_comma (s : string) : list string :=
  match s with
  | EmptyString => [""]
  | String c s' =>
      if Ascii.eqb c ","%char then "" :: split_comma s'
      else match split_comma s' with
           | x :: rest => String c x :: rest
           | [] => [String c ""]
           end
  end.

Definition parse_inputs_csv (inputs_csv : string) : list string :=
  List.filter (fun x => negb (String.eqb x ""))
    (map py_strip (split_comma inputs_csv)).

(** [os.path.join(None, pattern)] raises [TypeError]. *)
Definition list_inputs_from_dir (fs : file_system) (dir : option string)
    (pattern : string) : result (list string) :=
  match dir with
  | Some d => Ok (glob_sorted fs d pattern)
  | None => Raise TypeError
  end.

(** Lines 113 to 116 of [main]: an [--inputs] that is empty is not taken. *)
Definition candidate_paths (a : args) (fs : file_system) : result (list string) :=
  match inputs a with
  | Some (String c s) => Ok (parse_inputs_csv (String c s))
  | _ => list_inputs_from_dir fs (inputs_dir a) (glob a)
  end.

(** What a run of [main] leaves: its exit code (1 when it ends on an
    exception that nothing catches, which [raised] holds), the list that
    the output file holds when [json.dump] has returned, the number of
    input files, and the counters. *)
Record run := {
  exit_code : Z;
  raised : option exn;
  output : option (list record);
  inputs_count : nat;
  stats : counters
}.

(** The write step: the directory and the file are opened and the list is
    dumped; none of it is inside a [try]. *)
Definition write_output (a : args) (fs : file_system) (uniq : list record) : result unit :=
  bind (open_output fs (output_path a))
       (fun _ => py_json_dump (JList (JDict <$> uniq))).

(** The last message, printed unless [--quiet]. *)
Definition ok_message (a : args) (files : list input_file) (st : counters)
    (uniq : list record) : string :=
  "OK: inputs=" +:+ pretty (length files)
  +:+ " read_ok=" +:+ pretty (read_ok st)
  +:+ " read_fail=" +:+ pretty (read_fail st)
  +:+ " diagnostics_in=" +:+ pretty (length (merged st))
  +:+ " diagnostics_out=" +:+ pretty (length uniq)
  +:+ " output=" +:+ output_path a.

Definition print_ok (a : args) (fs : file_system) (files : list input_file)
    (st : counters) (uniq : list record) : result unit :=
  if quiet a then Ok tt else print_stdout fs (ok_message a files st uniq).

(** Lines 118 to 162 of [main]: from the candidate paths on. *)
Definition merge_files (a : args) (fs : file_system) (paths : list input_file) : run :=
  let files := List.filter is_file paths in
  let init := {| merged := []; read_ok := 0; read_fail := 0 |} in
  match files with
  | [] =>
      {| exit_code := 2; raised := None; output := None; inputs_count := 0;
         stats := init |}
  | _ =>
      let st := read_all files init in
      let uniq := if no_dedup a then merged st else dedup (merged st) in
      match write_output a fs uniq with
      | Raise e =>
          {| exit_code := 1; raised := Some e; output := None;
             inputs_count := length files; stats := st |}
      | Ok _ =>
          match print_ok a fs files st uniq with
          | Raise e =>
              {| exit_code := 1; raised := Some e; output := Some uniq;
                 inputs_count := length files; stats := st |}
          | Ok _ =>
              {| exit_code := 0; raised := None; output := Some uniq;
                 inputs_count := length files; stats := st |}
          end
      end
  end.

Definition main (a : args) (fs : file_system) : run :=
  match candidate_paths a fs with
  | Raise e =>
      {| exit_code := 1; raised := Some e; output := None; inputs_count := 0;
         stats := {| merged := []; read_ok := 0; read_fail := 0 |} |}
  | Ok paths => merge_files a fs (map (file_at fs) paths)
  end.

End Builtins.

End Merge.

(** ** report_diagnostics.py *)

Module Report.

Section Builtins.
Context {B : Builtins}.

Definition sanitize_csv_cell (value : json) : string :=
  let text := if is_none value then "" else str value in
  match text with
  | String c _ =>
      if existsb (Ascii.eqb c) ["="; "+"; "-"; "@"]%char
      then String "'" text else text
  | EmptyString => text
  end.

(** The result is whatever the export holds there, not always a string. *)
Definition get_code (d : record) : json :=
  match get d "code" with
  | JDict code => get code "value"
  | JStr code => JStr code
  | _ => JNull
  end.

Definition get_file (d : record) : option string :=
  let fp := py_or (get d "resource")
             (py_or (get d "file") (py_or (get d "uri") (get d "path"))) in
  let fp := match fp with
            | JDict m => py_or (get m "path") (py_or (get m "fsPath") (get m "uri"))
            | _ => fp
            end in
  if truthy fp then Some (str fp) else None.

(** Only [TypeError] and [ValueError] are caught. *)
Definition to_int_or_none (value : json) : result (option Z) :=
  if is_none value then Ok None
  else match int value with
       | Ok z => Ok (Some z)
       | Raise TypeError | Raise ValueError => Ok None
       | Raise e => Raise e
       end.

Definition dict_or_empty (v : json) : record :=
  match v with
  | JDict m => m
  | _ => ∅
  end.

Definition get_pos (d : record) : result (option Z * option Z) :=
  let line := get d "startLineNumber" in
  let col := get d "startColumn" in
  if negb (is_none line) && negb (is_none col) then
    bind (to_int_or_none line) (fun l =>
    bind (to_int_or_none col) (fun c => Ok (l, c)))
  else
    let r := dict_or_empty (get_default d "range" (JDict ∅)) in
    let s := dict_or_empty (get_default r "start" (JDict ∅)) in
    bind (to_int_or_none (get s "line")) (fun l =>
    bind (to_int_or_none (get s "character")) (fun c => Ok (l, c))).

End Builtins.

Definition extract_items (data : json) : list record :=
  match data with
  | JList l => dicts_of l
  | JDict m => Merge.extract_wrapped m ["problems"; "diagnostics"; "items"; "data"]
  | _ => []
  end.

Definition is_str (v : json) : bool :=
  match v with
  | JStr _ => true
  | _ => false
  end.

Definition is_valid_diagnostic_item (item : record) : bool :=
  is_str (get item "source") && is_str (get item "message").

(** The command line, after [argparse]. *)
Record args := {
  source : string;
  code : string;
  message_contains : string;
  version : string;
  day : string;
  max_items : Z
}.

(** [keep] is only called on items that passed the validity gate, so its
    [message] is a string; on anything else the substring test of the source
    would raise, a case that cannot be reached. *)
Definition keep (a : args) (d : record) : bool :=
  (String.eqb (source a) "*" || eq_str (get d "source") (source a))
  && (String.eqb (code a) "" || eq_str (get_code d) (code a))
  && (String.eqb (message_contains a) ""
      || match get_default d "message" (JStr "") with
         | JStr m => contains (message_contains a) m
         | _ => false
         end).

(** [Counter]: a dict, so its keys stay in the order of their first
    insertion. *)
Fixpoint counter_incr (fp : string) (c : list (string * nat)) : list (string * nat) :=
  match c with
  | [] => [(fp, 1)]
  | (k, n) :: c' =>
      if String.eqb k fp then (k, S n) :: c' else (k, n) :: counter_incr fp c'
  end.

(** [sorted(items, key=itemgetter(1), reverse=True)]: a stable sort, here by
    insertion from the right. *)
Fixpoint insert_desc (x : string * nat) (l : list (string * nat)) : list (string * nat) :=
  match l with
  | [] => [x]
  | y :: l' => if Nat.ltb (snd x) (snd y) then y :: insert_desc x l' else x :: l
  end.

Definition most_common (c : list (string * nat)) : list (string * nat) :=
  foldr insert_desc [] c.

(** A cell handed to [csv.writer]: a text or an integer. *)
Inductive cell :=
| CStr (s : string)
| CInt (z : Z).

Definition simple_header : list cell :=
  [CStr "day"; CStr "version"; CStr "file"; CStr "count"].

Definition detailed_header : list cell :=
  map CStr ["day"; "version"; "file"; "line"; "column"; "code"; "source"; "message"].

Section Builtins.
Context {B : Builtins}.

(** The loop that fills [per_file]. *)
Definition count_file (c : list (string * nat)) (d : record) : list (string * nat) :=
  match get_file d with
  | Some fp => if String.eqb fp "" then c else counter_incr fp c
  | None => c
  end.

Definition per_file (filtered : list record) : list (string * nat) :=
  fold_left count_file filtered [].

Definition simple_row (e : string * nat) : list cell :=
  [CStr (sanitize_csv_cell (JStr (fst e))); CInt (Z.of_nat (snd e))].

Definition pos_cell (p : option Z) : cell :=
  match p with
  | Some z => CInt z
  | None => CStr ""
  end.

(** [w.writerow(row)] into a file opened with [encoding="utf-8"]: the line
    is written whole, or nothing of it when a text of the row does not
    encode. *)
Definition encodable_cell (c : cell) : bool :=
  match c with
  | CStr s => utf8_encodable s
  | CInt _ => true
  end.

Definition writerow (row : list cell) : result (list cell) :=
  if forallb encodable_cell row then Ok row else Raise ValueError.

(** The row of a record in the detailed table: computed, then written. *)
Definition detailed_row (a : args) (d : record) : result (list cell) :=
  let fp := default "" (get_file d) in
  bind (get_pos d) (fun '(line, col) =>
  writerow
     [ CStr (sanitize_csv_cell (JStr (day a)));
       CStr (sanitize_csv_cell (JStr (version a)));
       CStr (sanitize_csv_cell (JStr fp));
       pos_cell line;
       pos_cell col;
       CStr (sanitize_csv_cell (py_or (get_code d) (JStr "")));
       CStr (sanitize_csv_cell (get_default d "source" (JStr "")));
       CStr (sanitize_csv_cell (get_default d "message" (JStr ""))) ]).

(** The rows of the per-file table written before an exception, if any,
    stops the loop. *)
Fixpoint write_simple (l : list (string * nat)) : list (list cell) * option exn :=
  match l with
  | [] => ([], None)
  | e :: rest =>
      match writerow (simple_row e) with
      | Raise x => ([], Some x)
      | Ok row => let '(rows, x) := write_simple rest in (row :: rows, x)
      end
  end.

(** The rows of the detailed table written before an exception, if any,
    stops the loop. *)
Fixpoint write_rows (a : args) (l : list record) : list (list cell) * option exn :=
  match l with
  | [] => ([], None)
  | d :: rest =>
      match detailed_row a d with
      | Raise e => ([], Some e)
      | Ok row => let '(rows, e) := write_rows a rest in (row :: rows, e)
      end
  end.

Inductive status :=
| Exit (code : Z)
| Uncaught (e : exn).

(** What a run leaves, from the decoded document on, the two output files
    being taken to open: the count of the warning, how the process ends,
    and the rows of the two files ([None]: the file is not reached). *)
Record run := {
  skipped_count : nat;
  exit_status : status;
  out_simple : option (list (list cell));
  out_detailed : option (list (list cell))
}.

Definition valid_items (data : json) : list record :=
  List.filter is_valid_diagnostic_item (extract_items data).

Definition filtered (a : args) (data : json) : list record :=
  let l := List.filter (keep a) (valid_items data) in
  if (0 <? max_items a)%Z then take (Z.to_nat (max_items a)) l else l.

Definition main (a : args) (data : json) : run :=
  let items := extract_items data in
  let skipped := length items - length (valid_items data) in
  if (max_items a <? 0)%Z then
    {| skipped_count := skipped; exit_status := Exit 2;
       out_simple := None; out_detailed := None |}
  else
    let fl := filtered a data in
    let '(simple, e) := write_simple (most_common (per_file fl)) in
    match e with
    | Some e =>
        {| skipped_count := skipped; exit_status := Uncaught e;
           out_simple := Some (simple_header :: simple);
           out_detailed := None |}
    | None =>
        let '(rows, e) := write_rows a fl in
        {| skipped_count := skipped;
           exit_status := match e with Some e => Uncaught e | None => Exit 0 end;
           out_simple := Some (simple_header :: simple);
           out_detailed := Some (detailed_header :: rows) |}
    end.

End Builtins.

End Report.

(** ** generate_report_charts_stdlib.py *)

Module Charts.

(** [counter.most_common(top_n)] is [heapq.nlargest(top_n, items, key)],
    which the library documents as [sorted(items, key, reverse=True)[:top_n]];
    a [top_n] that is not positive gives the empty list. *)
Definition top_items (counter : list (string * nat)) (top_n : Z) : list (string * nat) :=
  map (fun '(k, v) => (if String.eqb k "" then "(empty)" else k, v))
      (take (Z.to_nat top_n) (Report.most_common counter)).

End Charts.

(** ** A builtins instance to evaluate examples with

    [repr] is exact on the special floats and a fixed text elsewhere; [int]
    reads an optional sign followed by ASCII digits; [strip] takes off the
    ASCII white space; the dump raises on a lone surrogate and on nothing
    else.  The theorems below hold for every instance; this one only serves
    closed examples, none of which reaches the fixed text. *)

Module Sample.

Definition repr (v : json) : string :=
  match v with
  | JFloat S754_nan => "nan"
  | JFloat (S754_infinity false) => "inf"
  | JFloat (S754_infinity true) => "-inf"
  | JFloat (S754_zero false) => "0.0"
  | JFloat (S754_zero true) => "-0.0"
  | _ => "<repr>"
  end.

Definition digit (c : ascii) : option Z :=
  let n := nat_of_ascii c in
  if Nat.leb 48 n && Nat.leb n 57 then Some (Z.of_nat (n - 48)) else None.

Fixpoint digits (acc : Z) (s : string) : option Z :=
  match s with
  | EmptyString => Some acc
  | String c s' =>
      match digit c with
      | Some d => digits (10 * acc + d) s'
      | None => None
      end
  end.

Definition int_of_str (s : string) : option Z :=
  match s with
  | EmptyString => None
  | String "-" (String c r) => Z.opp <$> digits 0 (String c r)
  | String "+" (String c r) => digits 0 (String c r)
  | _ => digits 0 s
  end.

(** The text of [repr] is never empty. *)
Definition repr_nonempty (v : json) : repr v <> "".
Proof. destruct v as [| | |[[]|[]| |]| | |]; discriminate. Qed.

Definition is_space (c : ascii) : bool :=
  let n := nat_of_ascii c in
  Nat.eqb n 32 || (Nat.leb 9 n && Nat.leb n 13).

Fixpoint lstrip (s : string) : string :=
  match s with
  | String c s' => if is_space c then lstrip s' else s
  | EmptyString => s
  end.

Fixpoint rstrip (s : string) : string :=
  match s with
  | String c s' =>
      match rstrip s' with
      | EmptyString => if is_space c then "" else String c ""
      | r => String c r
      end
  | EmptyString => s
  end.

Definition strip (s : string) : string := rstrip (lstrip s).

Definition json_dump (v : json) : result unit :=
  if dumpable v then Ok tt else Raise ValueError.

(** The dump raises on a lone surrogate. *)
Definition json_dump_surrogate (v : json) :
  dumpable v = false -> exists e, json_dump v = Raise e.
Proof. intros Hv. exists ValueError. unfold json_dump. by rewrite Hv. Qed.

#[export] Instance builtins : Builtins :=
  {| py_repr := repr; py_repr_nonempty := repr_nonempty;
     py_int_of_str := int_of_str; py_strip := strip;
     py_json_dump := json_dump; py_json_dump_surrogate := json_dump_surrogate |}.

End Sample.

(** ** Definitions for the statements

    What the theorems below speak of: the readings of the specification's
    words, the inputs of the examples, and the helpers of the proofs. *)

Section Statements.
Context {B : Builtins}.

(** The specification's "first occurrence wins": the records of [l] whose
    canonical key occurs at no earlier position of [l]. *)
Definition first_occurrences (l : list record) : list record :=
  omap (fun '(i, d) =>
          if decide (Merge.diag_key d ∈ (Merge.diag_key <$> take i l))
          then None else Some d)
       (imap pair l).

(** The keys of a list of records, as a set. *)
Definition keys_of (l : list record) : gset Merge.key := list_to_set (Merge.diag_key <$> l).

(** The records of the documents that load, in document order. *)
Definition documents (files : list Merge.input_file) : list record :=
  concat (map (fun fp => match Merge.read_json_file fp with
                         | Ok data => Merge.extract_items data
                         | Raise _ => []
                         end) files).

Definition unreadable (fp : Merge.input_file) : bool :=
  match Merge.read_json_file fp with
  | Ok _ => false
  | Raise _ => true
  end.

(** The list that a run hands to the write step. *)
Definition kept (a : Merge.args) (ds : list record) : list record :=
  if Merge.no_dedup a then ds else Merge.dedup ds.

(** The counters before the first file. *)
Definition no_counts : Merge.counters :=
  {| Merge.merged := []; Merge.read_ok := 0; Merge.read_fail := 0 |}.

(** A path that exists and does not parse. *)
Definition broken_file : Merge.input_file :=
  {| Merge.is_file := true; Merge.read_json_file := Raise ValueError |}.

(** A path that exists and holds a list of one record. *)
Definition good_file : Merge.input_file :=
  {| Merge.is_file := true;
     Merge.read_json_file := Ok (JList [JDict {[ "message" := JStr "m1" ]}]) |}.

(** The text of one lone surrogate, [U+D800]. *)
Definition lone_surrogate : string :=
  String (ascii_of_nat 237) (String (ascii_of_nat 160) (String (ascii_of_nat 128) "")).

(** A path that exists and holds the list [[{"message": "\ud800"}]]. *)
Definition surrogate_file : Merge.input_file :=
  {| Merge.is_file := true;
     Merge.read_json_file :=
       Ok (JList [JDict {[ "message" := JStr lone_surrogate ]}]) |}.

(** Command lines of the merge script: [--inputs a.json,b.json] and
    [--inputs ""], both with [--output merged.json]. *)
Definition two_inputs : Merge.args :=
  {| Merge.inputs := Some "a.json,b.json"; Merge.inputs_dir := None;
     Merge.glob := "*.json"; Merge.output_path := "merged.json";
     Merge.no_dedup := false; Merge.quiet := false |}.

Definition empty_inputs : Merge.args :=
  {| Merge.inputs := Some ""; Merge.inputs_dir := None;
     Merge.glob := "*.json"; Merge.output_path := "merged.json";
     Merge.no_dedup := false; Merge.quiet := false |}.

(** A standard output in UTF-8 that refuses what does not encode. *)
Definition strict_stdout (s : string) : result unit :=
  if utf8_encodable s then Ok tt else Raise ValueError.

(** File systems in which the output opens: one where every path is
    [broken_file]; one where [a.json] is [good_file] and every other path
    [broken_file]; one where every path is [surrogate_file]. *)
Definition all_broken : Merge.file_system :=
  {| Merge.glob_sorted := fun _ _ => [];
     Merge.file_at := fun _ => broken_file;
     Merge.open_output := fun _ => Ok tt;
     Merge.print_stdout := strict_stdout |}.

Definition one_good : Merge.file_system :=
  {| Merge.glob_sorted := fun _ _ => [];
     Merge.file_at := fun p => if String.eqb p "a.json" then good_file else broken_file;
     Merge.open_output := fun _ => Ok tt;
     Merge.print_stdout := strict_stdout |}.

Definition all_surrogate : Merge.file_system :=
  {| Merge.glob_sorted := fun _ _ => [];
     Merge.file_at := fun _ => surrogate_file;
     Merge.open_output := fun _ => Ok tt;
     Merge.print_stdout := strict_stdout |}.

(** The first of the keys [ks] that the mapping holds, whatever its value:
    the specification's "first present". *)
Fixpoint first_present (d : record) (ks : list string) : option json :=
  match ks with
  | [] => None
  | k :: ks' =>
      match d !! k with
      | Some v => Some v
      | None => first_present d ks'
      end
  end.

(** The file as the specification words it. *)
Definition file_by_presence (d : record) : string :=
  match first_present d ["resource"; "file"; "uri"; "path"] with
  | Some (JDict m) =>
      match first_present m ["path"; "fsPath"; "uri"] with
      | Some v => str v
      | None => ""
      end
  | Some v => str v
  | None => ""
  end.

(** The first of the keys [ks] whose value in the mapping is truthy. *)
Fixpoint first_truthy (d : record) (ks : list string) : option json :=
  match ks with
  | [] => None
  | k :: ks' => if truthy (get d k) then Some (get d k) else first_truthy d ks'
  end.

Definition file_value (d : record) : option json :=
  match first_truthy d ["resource"; "file"; "uri"; "path"] with
  | Some (JDict m) => first_truthy m ["path"; "fsPath"; "uri"]
  | o => o
  end.

(** The position fields of a record: the direct ones, and those under
    [range.start] (a step that is not a mapping leads nowhere). *)
Definition direct_position (d : record) : json * json :=
  (get d "startLineNumber", get d "startColumn").

Definition sub (d : record) (k : string) : record :=
  Report.dict_or_empty (get d k).

Definition range_position (d : record) : json * json :=
  (get (sub (sub d "range") "start") "line",
   get (sub (sub d "range") "start") "character").

Definition both_present (p : json * json) : bool :=
  negb (is_none (fst p)) && negb (is_none (snd p)).

(** [range] and [range.start] are mappings, or are missing. *)
Definition mapping_or_missing (d : record) (k : string) : bool :=
  match d !! k with
  | None | Some (JDict _) => true
  | Some _ => false
  end.

Definition range_usable (d : record) : bool :=
  mapping_or_missing d "range" && mapping_or_missing (sub d "range") "start".

(** The specification's coercion: the integer when [int] gives one, the
    unset marker otherwise. *)
Definition coerced (v : json) : option Z :=
  match int v with
  | Ok z => Some z
  | Raise _ => None
  end.

(** The marker of a position in a text: the integer in decimal, or empty. *)
Definition marker (p : option Z) : string :=
  match p with
  | Some z => pretty z
  | None => ""
  end.

Definition coerce_pair (p : json * json) : result (option Z * option Z) :=
  bind (Report.to_int_or_none (fst p)) (fun l =>
  bind (Report.to_int_or_none (snd p)) (fun c => Ok (l, c))).

(** The value that both [get_file] functions turn into a text. *)
Definition file_chain (d : record) : json :=
  let fp := py_or (get d "resource")
             (py_or (get d "file") (py_or (get d "uri") (get d "path"))) in
  match fp with
  | JDict m => py_or (get m "path") (py_or (get m "fsPath") (get m "uri"))
  | _ => fp
  end.

(** A record whose [resource] is present and empty. *)
Definition empty_resource_record : record :=
  {[ "resource" := JStr ""; "file" := JStr "a.c" ]}.

(** The record of the test of malformed positions. *)
Definition text_position_record : record :=
  {[ "startLineNumber" := JStr "abc"; "startColumn" := JStr "not-an-int" ]}.

(** A record with a line, no column, and a [range] that is a text. *)
Definition text_range_record : record :=
  {[ "startLineNumber" := JInt 5; "range" := JStr "x" ]}.

(** A record with a line, no column and no [range]. *)
Definition line_only_record : record :=
  {[ "startLineNumber" := JInt 5 ]}.

(** The text of a cell value and its neutralised form, as the specification
    words them. *)
Definition starts_with_trigger (s : string) : bool :=
  match s with
  | String c _ => bool_decide (c ∈ ["="; "+"; "-"; "@"]%char)
  | EmptyString => false
  end.

Definition neutralized (s : string) : string :=
  if starts_with_trigger s then String "'" s else s.

(** What [csv.writer] writes for a cell. *)
Definition render (c : Report.cell) : string :=
  match c with
  | Report.CStr s => s
  | Report.CInt z => pretty z
  end.

(** The document left when the records that fail the validity gate are
    taken out. *)
Definition without_invalid (data : json) : json :=
  JList (JDict <$> Report.valid_items data).

(** The arguments and the document of the test
    [test_day_and_version_are_present]. *)
Definition day_version_args : Report.args :=
  {| Report.source := "clangd"; Report.code := "";
     Report.message_contains := ""; Report.version := "release-42";
     Report.day := "2026-01-01"; Report.max_items := 0 |}.

Definition day_version_payload : json :=
  JDict {[ "diagnostics" :=
    JList [JDict {[ "source" := JStr "clangd"; "message" := JStr "ok";
                    "file" := JStr "a.c"; "code" := JStr "unused-includes" ]}] ]}.

(** The files in the order in which each is first seen. *)
Fixpoint first_seen (l : list string) : list string :=
  match l with
  | [] => []
  | x :: l' => x :: filter (fun y => y ≠ x) (first_seen l')
  end.

Definition occurrences (f : string) (l : list string) : nat :=
  length (filter (fun g => g = f) l).

(** The groups of the summary as the specification words them: one per
    file, in first-seen order, with its number of occurrences. *)
Definition groups (fs : list string) : list (string * nat) :=
  map (fun f => (f, occurrences f fs)) (first_seen fs).

(** The derived files of the records that have one. *)
Definition report_files (l : list record) : list string :=
  filter (fun f => f ≠ "") (map (fun d => default "" (Report.get_file d)) l).

Definition at_least (x y : string * nat) : Prop := (snd y <= snd x)%nat.

Definition is_dict (v : json) : bool :=
  match v with
  | JDict _ => true
  | _ => false
  end.

Definition is_list (v : json) : bool :=
  match v with
  | JList _ => true
  | _ => false
  end.

(** The wrapper keys, in the order in which [extract_items] tries them. *)
Definition wrapper_keys : list string := ["problems"; "diagnostics"; "items"; "data"].

(** The record [d] with its position moved from [startLineNumber] and
    [startColumn] to [range.start.line] and [range.start.character]. *)
Definition to_range_shape (d : record) : record :=
  <["range" := JDict {[ "start" :=
       JDict {[ "line" := get d "startLineNumber";
                "character" := get d "startColumn" ]} ]}]>
    (delete "startLineNumber" (delete "startColumn" d)).

(** A record with its position in the direct fields. *)
Definition direct_shape_record : record :=
  {[ "file" := JStr "a.c"; "message" := JStr "m1";
     "startLineNumber" := JInt 3; "startColumn" := JInt 7 ]}.

(** The records that pass the gate and the filters, before the cap. *)
Definition kept_items (a : Report.args) (data : json) : list record :=
  List.filter (Report.keep a) (Report.valid_items data).

(** The message component of the canonical key. *)
Definition key_message (d : record) : string :=
  snd (Merge.diag_key d).

Definition key_code (d : record) : string :=
  snd (fst (fst (fst (Merge.diag_key d)))).

Definition key_file (d : record) : string :=
  fst (fst (fst (fst (Merge.diag_key d)))).

Definition is_infinite (v : json) : bool :=
  match v with
  | JFloat (S754_infinity _) => true
  | _ => false
  end.

(** None of the position fields of the record is an infinite float. *)
Definition finite_position (d : record) : bool :=
  negb (is_infinite (fst (direct_position d)))
  && negb (is_infinite (snd (direct_position d)))
  && negb (is_infinite (fst (range_position d)))
  && negb (is_infinite (snd (range_position d))).

(** The text of a value in a cell: empty for [None], its [str] otherwise. *)
Definition cell_text (v : json) : string :=
  if is_none v then "" else str v.

(** The texts that the row of the record shows all encode. *)
Definition encodable_record (d : record) : bool :=
  utf8_encodable (default "" (Report.get_file d))
  && utf8_encodable (cell_text (py_or (Report.get_code d) (JStr "")))
  && utf8_encodable (cell_text (get_default d "source" (JStr "")))
  && utf8_encodable (cell_text (get_default d "message" (JStr ""))).

(** The record of the specification's second scenario. *)
Definition formula_record : record :=
  {[ "source" := JStr "clangd"; "message" := JStr "=2+2";
     "file" := JStr "@danger.c"; "code" := JDict {[ "value" := JStr "+SUM(A1)" ]} ]}.

(** Its row in the detailed table, under the arguments [day_version_args]. *)
Definition formula_row : list Report.cell :=
  map Report.CStr
    ["2026-01-01"; "release-42"; "'@danger.c"; ""; ""; "'+SUM(A1)";
     "clangd"; "'=2+2"].

(** The document of the test of malformed positions. *)
Definition malformed_positions : json :=
  JDict {[ "diagnostics" := JList [
    JDict {[ "source" := JStr "clangd"; "message" := JStr "bad position";
             "file" := JStr "a.c"; "startLineNumber" := JStr "abc";
             "startColumn" := JStr "not-an-int" ]};
    JDict {[ "source" := JStr "clangd"; "message" := JStr "bad range";
             "file" := JStr "b.c";
             "range" := JDict {[ "start" :=
               JDict {[ "line" := JStr "x"; "character" := JStr "y" ]} ]} ]} ] ]}.

End Statements.

(** * Theorems *)

(** ** Deduplication *)

Section Dedup.
Context {B : Builtins}.

Implicit Types (l p : list record) (seen : gset Merge.key).

(** The accumulator of the loop only grows at its end. *)
Lemma dedup_loop_acc seen uniq l :
  Merge.dedup_loop seen uniq l = uniq ++ Merge.dedup_loop seen [] l.
Proof.
  revert seen uniq. induction l as [|d l IH]; intros seen uniq; simpl.
  - by rewrite app_nil_r.
  - case_decide; [apply IH|].
    rewrite (IH _ (uniq ++ [d])), (IH _ [d]). by rewrite <-app_assoc.
Qed.

Lemma dedup_loop_cons_seen seen d l :
  Merge.diag_key d ∈ seen →
  Merge.dedup_loop seen [] (d :: l) = Merge.dedup_loop seen [] l.
Proof. intros Hin. simpl. by rewrite decide_True. Qed.

Lemma dedup_loop_cons_new seen d l :
  Merge.diag_key d ∉ seen →
  Merge.dedup_loop seen [] (d :: l)
  = d :: Merge.dedup_loop ({[Merge.diag_key d]} ∪ seen) [] l.
Proof. intros Hin. simpl. rewrite decide_False by done. by rewrite dedup_loop_acc. Qed.

Lemma dedup_loop_app seen l1 l2 :
  Merge.dedup_loop seen [] (l1 ++ l2)
  = Merge.dedup_loop seen [] l1 ++ Merge.dedup_loop (keys_of l1 ∪ seen) [] l2.
Proof.
  revert seen. induction l1 as [|d l1 IH]; intros seen.
  - simpl. f_equal. unfold keys_of. set_solver.
  - rewrite <-app_comm_cons.
    destruct (decide (Merge.diag_key d ∈ seen)) as [Hin|Hin].
    + rewrite !dedup_loop_cons_seen by done. rewrite IH. do 2 f_equal.
      unfold keys_of. set_solver.
    + rewrite !dedup_loop_cons_new by done. rewrite IH. simpl. do 3 f_equal.
      unfold keys_of. set_solver.
Qed.

Lemma dedup_loop_all_seen seen l :
  keys_of l ⊆ seen → Merge.dedup_loop seen [] l = [].
Proof.
  induction l as [|d l IH]; intros Hsub; [done|].
  rewrite dedup_loop_cons_seen; [apply IH|]; unfold keys_of in *; set_solver.
Qed.

Lemma dedup_loop_idem seen l :
  Merge.dedup_loop seen [] (Merge.dedup_loop seen [] l) = Merge.dedup_loop seen [] l.
Proof.
  revert seen. induction l as [|d l IH]; intros seen; [done|].
  destruct (decide (Merge.diag_key d ∈ seen)) as [Hin|Hin].
  - rewrite dedup_loop_cons_seen by done. apply IH.
  - rewrite dedup_loop_cons_new by done.
    rewrite dedup_loop_cons_new by done. by rewrite IH.
Qed.

Lemma dedup_twice l : Merge.dedup (l ++ l) = Merge.dedup l.
Proof.
  unfold Merge.dedup. rewrite dedup_loop_app.
  rewrite (dedup_loop_all_seen (_ ∪ _)) by set_solver. by rewrite app_nil_r.
Qed.

Lemma dedup_idem l : Merge.dedup (Merge.dedup l) = Merge.dedup l.
Proof. apply dedup_loop_idem. Qed.

End Dedup.

Section DedupOrder.
Context {B : Builtins}.

Implicit Types (l p : list record) (seen : gset Merge.key).

Lemma keys_of_snoc p d :
  keys_of (p ++ [d]) = {[Merge.diag_key d]} ∪ keys_of p.
Proof. unfold keys_of. rewrite fmap_app, list_to_set_app_L. set_solver. Qed.

Lemma elem_of_keys_of p k : k ∈ keys_of p ↔ k ∈ (Merge.diag_key <$> p).
Proof. unfold keys_of. by rewrite elem_of_list_to_set. Qed.

(** The loop started on the keys of a prefix [p] keeps, of [l], what is new
    with respect to [p] and to the part of [l] already read. *)
Lemma dedup_loop_first p l :
  Merge.dedup_loop (keys_of p) [] l
  = omap (fun '(i, d) =>
            if decide (Merge.diag_key d ∈ (Merge.diag_key <$> take i (p ++ l)))
            then None else Some d)
         (imap (fun i d => (length p + i, d)) l).
Proof.
  revert p. induction l as [|d l IH]; intros p; [done|].
  specialize (IH (p ++ [d])).
  rewrite <-app_assoc, length_app in IH. simpl in IH.
  assert (imap (λ i d0, (length p + 1 + i, d0)) l
          = imap ((λ i d0, (length p + i, d0)) ∘ S) l) as Himap.
  { apply imap_ext. intros i x _. simpl. f_equal. lia. }
  rewrite Himap in IH. clear Himap.
  cbn [imap omap list_omap]. rewrite Nat.add_0_r, take_app_length.
  destruct (decide (Merge.diag_key d ∈ keys_of p)) as [Hin|Hin].
  - rewrite dedup_loop_cons_seen by done.
    rewrite decide_True by by apply elem_of_keys_of.
    rewrite <-IH. f_equal. rewrite keys_of_snoc. set_solver.
  - rewrite dedup_loop_cons_new by done.
    rewrite decide_False by by rewrite <-elem_of_keys_of.
    rewrite <-IH. by rewrite keys_of_snoc.
Qed.

Lemma dedup_first_occurrences l : Merge.dedup l = first_occurrences l.
Proof. apply (dedup_loop_first [] l). Qed.

Lemma dedup_loop_distinct seen l :
  (∀ d, d ∈ l → Merge.diag_key d ∉ seen) →
  NoDup (Merge.diag_key <$> l) →
  Merge.dedup_loop seen [] l = l.
Proof.
  revert seen. induction l as [|d l IH]; intros seen Hnew Hnd; [done|].
  rewrite fmap_cons in Hnd. apply NoDup_cons in Hnd as [Hd Hnd].
  rewrite dedup_loop_cons_new by (apply Hnew; left).
  f_equal. apply IH; [|done].
  intros d' Hd'. rewrite elem_of_union, elem_of_singleton.
  intros [Heq|Hin].
  - apply Hd. rewrite <-Heq. by apply list_elem_of_fmap_2.
  - by apply (Hnew d'); [right|].
Qed.

Lemma dedup_sublist l : Merge.dedup l `sublist_of` l.
Proof.
  unfold Merge.dedup. generalize (∅ : gset Merge.key).
  induction l as [|d l IH]; intros seen; [done|].
  destruct (decide (Merge.diag_key d ∈ seen)).
  - rewrite dedup_loop_cons_seen by done. by apply sublist_cons.
  - rewrite dedup_loop_cons_new by done. by apply sublist_skip.
Qed.

End DedupOrder.

(** ** The merge run *)

Section MergeRun.
Context {B : Builtins}.

Lemma read_all_merged files st :
  Merge.merged (Merge.read_all files st) = Merge.merged st ++ documents files.
Proof.
  revert st. induction files as [|fp files IH]; intros st; simpl.
  - by rewrite app_nil_r.
  - unfold documents. simpl. fold (documents files).
    destruct (Merge.read_json_file fp); rewrite IH; simpl; [|done].
    by rewrite <-app_assoc.
Qed.

Lemma read_all_counts files st :
  Merge.read_fail (Merge.read_all files st)
  = Merge.read_fail st + length (List.filter unreadable files)
  ∧ Merge.read_ok (Merge.read_all files st)
  = Merge.read_ok st + length (List.filter (fun fp => negb (unreadable fp)) files).
Proof.
  revert st. induction files as [|fp files IH]; intros st; simpl; [lia|].
  assert (unreadable fp = match Merge.read_json_file fp with
                          | Ok _ => false | Raise _ => true end) as Hu by done.
  destruct (Merge.read_json_file fp); rewrite Hu;
    match goal with |- context [Merge.read_all files ?s] =>
      destruct (IH s) as [-> ->] end; simpl; lia.
Qed.

Lemma merge_files_run a fs paths :
  Merge.merge_files a fs paths
  = let files := List.filter Merge.is_file paths in
    let uniq := kept a (documents files) in
    let st := Merge.read_all files no_counts in
    match files with
    | [] =>
        {| Merge.exit_code := 2; Merge.raised := None; Merge.output := None;
           Merge.inputs_count := 0; Merge.stats := no_counts |}
    | _ =>
        match Merge.write_output a fs uniq with
        | Raise e =>
            {| Merge.exit_code := 1; Merge.raised := Some e;
               Merge.output := None;
               Merge.inputs_count := length files; Merge.stats := st |}
        | Ok _ =>
            match Merge.print_ok a fs files st uniq with
            | Raise e =>
                {| Merge.exit_code := 1; Merge.raised := Some e;
                   Merge.output := Some uniq;
                   Merge.inputs_count := length files; Merge.stats := st |}
            | Ok _ =>
                {| Merge.exit_code := 0; Merge.raised := None;
                   Merge.output := Some uniq;
                   Merge.inputs_count := length files; Merge.stats := st |}
            end
        end
    end.
Proof.
  unfold Merge.merge_files, kept. fold no_counts. cbv zeta.
  destruct (List.filter Merge.is_file paths) as [|fp files]; [done|].
  by rewrite read_all_merged.
Qed.

Lemma main_output a fs paths :
  Merge.output (Merge.merge_files a fs paths)
  = match List.filter Merge.is_file paths with
    | [] => None
    | files =>
        match Merge.write_output a fs (kept a (documents files)) with
        | Ok _ => Some (kept a (documents files))
        | Raise _ => None
        end
    end.
Proof.
  rewrite merge_files_run. cbv zeta.
  destruct (List.filter Merge.is_file paths) as [|fp files]; [done|].
  destruct (Merge.write_output _ _ _); [|done].
  by destruct (Merge.print_ok _ _ _ _ _).
Qed.

Lemma documents_app f1 f2 : documents (f1 ++ f2) = documents f1 ++ documents f2.
Proof. unfold documents. by rewrite map_app, concat_app. Qed.

End MergeRun.

(** ** C1 and C2: the deduplication is idempotent and keeps first-seen order *)

(** C1. Deduplication is idempotent.  Deduplicating a sequence followed by
    itself gives what deduplicating it once gives; deduplicating a
    deduplicated sequence, alone or followed by itself, returns it
    unchanged; and a run of the merge over the same input paths given twice
    writes the list that a run over them given once writes.  The key is a
    function of the record alone: [Merge.diag_key] takes no other
    argument. *)
Theorem dedup_idempotent {B : Builtins}
    (l : list record) (a : Merge.args) (fs : Merge.file_system)
    (paths : list Merge.input_file) :
  Merge.dedup (l ++ l) = Merge.dedup l
  ∧ Merge.dedup (Merge.dedup l) = Merge.dedup l
  ∧ Merge.dedup (Merge.dedup l ++ Merge.dedup l) = Merge.dedup l
  ∧ (Merge.no_dedup a = false →
     Merge.output (Merge.merge_files a fs (paths ++ paths))
     = Merge.output (Merge.merge_files a fs paths))
  ∧ (Merge.no_dedup a = false →
     ∀ a' ps,
       Merge.candidate_paths a fs = Ok ps →
       Merge.candidate_paths a' fs = Ok (ps ++ ps) →
       Merge.no_dedup a' = false →
       Merge.output_path a' = Merge.output_path a →
       Merge.output (Merge.main a' fs) = Merge.output (Merge.main a fs)).
Proof.
  assert (∀ a1 a2 ps,
            Merge.no_dedup a1 = false → Merge.no_dedup a2 = false →
            Merge.output_path a2 = Merge.output_path a1 →
            Merge.output (Merge.merge_files a2 fs (ps ++ ps))
            = Merge.output (Merge.merge_files a1 fs ps)) as Htwice.
  { intros a1 a2 ps H1 H2 Hpath. rewrite !main_output, List.filter_app.
    destruct (List.filter Merge.is_file ps) as [|fp files]; [done|].
    change ((fp :: files) ++ fp :: files) with (fp :: (files ++ fp :: files)).
    cbv beta iota.
    change (fp :: (files ++ fp :: files)) with ((fp :: files) ++ fp :: files).
    unfold kept, Merge.write_output. rewrite H1, H2, Hpath.
    by rewrite documents_app, dedup_twice. }
  split_and!.
  - apply dedup_twice.
  - apply dedup_idem.
  - by rewrite dedup_twice, dedup_idem.
  - intros Ha. by apply Htwice.
  - intros Ha a' ps Hps Hps' Ha' Hpath. unfold Merge.main.
    rewrite Hps, Hps', map_app. by apply Htwice.
Qed.

(** C2. Deduplication preserves first-seen order: the output is the
    subsequence of the records whose key occurs at no earlier position, and
    an input with pairwise distinct keys comes out unchanged. *)
Theorem dedup_first_seen_order {B : Builtins} (l : list record) :
  Merge.dedup l = first_occurrences l
  ∧ Merge.dedup l `sublist_of` l
  ∧ (NoDup (Merge.diag_key <$> l) → Merge.dedup l = l).
Proof.
  split_and!.
  - apply dedup_first_occurrences.
  - apply dedup_sublist.
  - intros Hnd. apply (dedup_loop_distinct ∅ l); [|done].
    intros d _. apply not_elem_of_empty.
Qed.

(** ** C3: one bad document does not stop the merge *)

(** C3, as stated, fails: over two existing inputs that cannot be parsed,
    so that all inputs are unreadable, the run ends with result 0 and
    writes an empty list. *)
Lemma all_unreadable_exits_zero :
  Merge.candidate_paths (B:=Sample.builtins) two_inputs all_broken
  = Ok ["a.json"; "b.json"]
  ∧ List.filter Merge.is_file (map (Merge.file_at all_broken) ["a.json"; "b.json"])
    = [broken_file; broken_file]
  ∧ forallb unreadable [broken_file; broken_file] = true
  ∧ Merge.exit_code (Merge.main (B:=Sample.builtins) two_inputs all_broken) = 0%Z
  ∧ Merge.output (Merge.main (B:=Sample.builtins) two_inputs all_broken) = Some []
  ∧ Merge.read_fail
      (Merge.stats (Merge.main (B:=Sample.builtins) two_inputs all_broken)) = 2.
Proof. by vm_compute. Qed.

(** The write step is outside the [try]: a record holding a lone surrogate
    is read and merged, and the run then ends on the exception of
    [json.dump], with result 1. *)
Lemma lone_surrogate_stops_write :
  Merge.exit_code (Merge.main (B:=Sample.builtins) two_inputs all_surrogate) = 1%Z
  ∧ Merge.raised (Merge.main (B:=Sample.builtins) two_inputs all_surrogate)
    = Some ValueError
  ∧ Merge.output (Merge.main (B:=Sample.builtins) two_inputs all_surrogate) = None
  ∧ Merge.read_ok
      (Merge.stats (Merge.main (B:=Sample.builtins) two_inputs all_surrogate)) = 2.
Proof. by vm_compute. Qed.

(** An empty [--inputs] is not taken, and the directory that is then
    asked for is [None]: the run ends on a [TypeError], with result 1. *)
Lemma empty_inputs_raises :
  Merge.exit_code (Merge.main (B:=Sample.builtins) empty_inputs all_broken) = 1%Z
  ∧ Merge.raised (Merge.main (B:=Sample.builtins) empty_inputs all_broken)
    = Some TypeError.
Proof. by vm_compute. Qed.

Lemma documents_unreadable files :
  forallb unreadable files = true → documents files = [].
Proof.
  induction files as [|fp files IH]; [done|]. simpl.
  intros [Hfp Hall]%andb_prop. unfold documents. simpl. fold (documents files).
  unfold unreadable in Hfp. destruct (Merge.read_json_file fp); [done|].
  by rewrite IH.
Qed.

Lemma documents_skip f1 bad f2 :
  unreadable bad = true → documents (f1 ++ bad :: f2) = documents (f1 ++ f2).
Proof.
  intros Hbad. rewrite !documents_app. f_equal.
  change (bad :: f2) with ([bad] ++ f2). rewrite documents_app.
  by rewrite (documents_unreadable [bad]) by (simpl; by rewrite Hbad).
Qed.

(** C3, amended.  Over a non-empty list of existing input files, a
    document that fails to load is left out and counted in [read_fail],
    every file is counted once, and the reading goes on to the end: the
    records of the documents that load, in order, reach the write step,
    also when every document fails, the list then being empty.  Such a run
    never ends with result 2: it ends with result 0, the list written, when
    the write step and the last message raise nothing; and with result 1
    when the output does not open, when [json.dump] raises, as it does on
    a text holding a lone surrogate, or when the print of the last message
    raises.  Result 2 is that of a run whose candidate paths hold no
    existing file; a run with an empty [--inputs] ends on a [TypeError]
    instead. *)
Theorem merge_isolates_failures {B : Builtins}
    (a : Merge.args) (fs : Merge.file_system) (paths : list Merge.input_file) :
  let files := List.filter Merge.is_file paths in
  let r := Merge.merge_files a fs paths in
  let uniq := kept a (documents files) in
  (files = [] ↔ Merge.exit_code r = 2%Z)
  ∧ (files ≠ [] →
     Merge.merged (Merge.stats r) = documents files
     ∧ Merge.read_fail (Merge.stats r) = length (List.filter unreadable files)
     ∧ Merge.read_ok (Merge.stats r) + Merge.read_fail (Merge.stats r)
       = length files
     ∧ (∀ f1 bad f2, files = f1 ++ bad :: f2 → unreadable bad = true →
        Merge.merged (Merge.stats r) = documents (f1 ++ f2))
     ∧ (forallb unreadable files = true → uniq = [])
     ∧ (Merge.write_output a fs uniq = Ok tt →
        Merge.print_ok a fs files (Merge.stats r) uniq = Ok tt →
        Merge.exit_code r = 0%Z ∧ Merge.raised r = None
        ∧ Merge.output r = Some uniq)
     ∧ (∀ e, Merge.write_output a fs uniq = Raise e →
        Merge.exit_code r = 1%Z ∧ Merge.raised r = Some e
        ∧ Merge.output r = None)
     ∧ (∀ e, Merge.write_output a fs uniq = Ok tt →
        Merge.print_ok a fs files (Merge.stats r) uniq = Raise e →
        Merge.exit_code r = 1%Z ∧ Merge.raised r = Some e
        ∧ Merge.output r = Some uniq)
     ∧ (dumpable (JList (JDict <$> uniq)) = false →
        Merge.exit_code r = 1%Z ∧ Merge.output r = None))
  ∧ (Merge.exit_code (Merge.main a fs) = 2%Z
     ↔ ∃ ps, Merge.candidate_paths a fs = Ok ps
             ∧ List.filter Merge.is_file (map (Merge.file_at fs) ps) = [])
  ∧ (Merge.inputs a = Some "" → Merge.inputs_dir a = None →
     Merge.exit_code (Merge.main a fs) = 1%Z
     ∧ Merge.raised (Merge.main a fs) = Some TypeError).
Proof.
  intros files r uniq.
  assert (Hcode2 : ∀ ps, List.filter Merge.is_file ps = []
                         ↔ Merge.exit_code (Merge.merge_files a fs ps) = 2%Z).
  { intros ps. rewrite merge_files_run. cbv zeta.
    destruct (List.filter Merge.is_file ps) as [|fp l]; [done|].
    destruct (Merge.write_output _ _ _); [|done].
    by destruct (Merge.print_ok _ _ _ _ _). }
  split_and!.
  - apply Hcode2.
  - intros Hne.
    assert (Hrun : r = match Merge.write_output a fs uniq with
                       | Raise e =>
                           {| Merge.exit_code := 1; Merge.raised := Some e;
                              Merge.output := None;
                              Merge.inputs_count := length files;
                              Merge.stats := Merge.read_all files no_counts |}
                       | Ok _ =>
                           match Merge.print_ok a fs files
                                   (Merge.read_all files no_counts) uniq with
                           | Raise e =>
                               {| Merge.exit_code := 1; Merge.raised := Some e;
                                  Merge.output := Some uniq;
                                  Merge.inputs_count := length files;
                                  Merge.stats := Merge.read_all files no_counts |}
                           | Ok _ =>
                               {| Merge.exit_code := 0; Merge.raised := None;
                                  Merge.output := Some uniq;
                                  Merge.inputs_count := length files;
                                  Merge.stats := Merge.read_all files no_counts |}
                           end
                       end).
    { subst r uniq. rewrite merge_files_run. cbv zeta. fold files.
      by destruct files. }
    assert (Hstats : Merge.stats r = Merge.read_all files no_counts).
    { rewrite Hrun. destruct (Merge.write_output _ _ _); [|done].
      by destruct (Merge.print_ok _ _ _ _ _). }
    assert (Hmerged : Merge.merged (Merge.stats r) = documents files).
    { by rewrite Hstats, read_all_merged. }
    clearbody r files.
    destruct (read_all_counts files no_counts) as [Hfail Hok].
    simpl in Hfail, Hok.
    split_and!.
    + exact Hmerged.
    + by rewrite Hstats.
    + rewrite Hstats, Hfail, Hok.
      pose proof (List.filter_length unreadable files). lia.
    + intros f1 bad f2 Hsplit Hbad. by rewrite Hmerged, Hsplit, documents_skip.
    + intros Hall. subst uniq. rewrite documents_unreadable by done.
      unfold kept. by destruct (Merge.no_dedup a).
    + rewrite Hstats. intros Hw Hp. by rewrite Hrun, Hw, Hp.
    + intros e Hw. by rewrite Hrun, Hw.
    + rewrite Hstats. intros e Hw Hp. by rewrite Hrun, Hw, Hp.
    + intros Hdump.
      assert (∃ e, Merge.write_output a fs uniq = Raise e) as [e Hw].
      { unfold Merge.write_output.
        destruct (Merge.open_output fs _) as [u|e]; simpl; [|by exists e].
        by apply py_json_dump_surrogate. }
      by rewrite Hrun, Hw.
  - unfold Merge.main. destruct (Merge.candidate_paths a fs) as [ps|e]; simpl.
    + rewrite <-Hcode2. split; [by exists ps|]. by intros (ps' & [= <-] & ?).
    + split; [done|]. by intros (ps' & ? & _).
  - intros Hin Hdir. unfold Merge.main, Merge.candidate_paths.
    by rewrite Hin, Hdir.
Qed.

(** A run over one document that loads and one that does not. *)
Lemma merge_isolates_failures_witness :
  Merge.exit_code (Merge.main (B:=Sample.builtins) two_inputs one_good) = 0%Z
  ∧ Merge.output (Merge.main (B:=Sample.builtins) two_inputs one_good)
    = Some [ {[ "message" := JStr "m1" ]} ]
  ∧ Merge.read_fail
      (Merge.stats (Merge.main (B:=Sample.builtins) two_inputs one_good))
    = 1.
Proof.
  destruct (merge_isolates_failures (B:=Sample.builtins) two_inputs one_good
              [good_file; broken_file]) as (_ & Hrun & _).
  destruct Hrun as (_ & Hfail & _ & _ & _ & Hzero & _); [done|].
  destruct Hzero as (Hcode & _ & Hout); [by vm_compute|by vm_compute|].
  split_and!; [exact Hcode| |exact Hfail].
  etrans; [exact Hout|]. by vm_compute.
Defined.

(** ** Field extraction: file and position *)

Section Extraction.
Context {B : Builtins}.

Lemma pretty_N_go_nonempty x s : s ≠ "" → pretty_N_go x s ≠ "".
Proof.
  revert s. induction (N.lt_wf_0 x) as [x _ IH]; intros s Hs.
  destruct (decide (x = 0%N)) as [->|Hx]; [by rewrite pretty_N_go_0|].
  rewrite pretty_N_go_step by lia. apply IH; [|done].
  apply N.div_lt; lia.
Qed.

Lemma pretty_positive_nonempty (p : positive) : pretty p ≠ "".
Proof.
  unfold pretty, pretty_positive, pretty, pretty_N.
  rewrite decide_False by done.
  rewrite pretty_N_go_step by lia. by apply pretty_N_go_nonempty.
Qed.

Lemma pretty_Z_nonempty (z : Z) : pretty z ≠ "".
Proof.
  destruct z as [|p|p]; unfold pretty, pretty_Z; [done| |done].
  apply pretty_positive_nonempty.
Qed.

(** The text of a truthy value is never empty. *)
Lemma str_truthy_nonempty v : truthy v = true → str v ≠ "".
Proof.
  destruct v as [|[]|z|f|s|l|m]; simpl; try done.
  - intros _. apply pretty_Z_nonempty.
  - intros _. apply py_repr_nonempty.
  - destruct s; [done|discriminate].
  - intros _. apply py_repr_nonempty.
  - intros _. apply py_repr_nonempty.
Qed.

Lemma py_or_truthy a b : truthy a = true → py_or a b = a.
Proof. unfold py_or. by intros ->. Qed.

Lemma py_or_falsy a b : truthy a = false → py_or a b = b.
Proof. unfold py_or. by intros ->. Qed.

Lemma or_chain_first_truthy (d : record) k ks :
  let chain := foldr (fun k acc => py_or (get d k) acc) (get d k) ks in
  first_truthy d (ks ++ [k])
  = if truthy chain then Some chain else None.
Proof.
  induction ks as [|k' ks IH]; simpl.
  - by destruct (truthy (get d k)).
  - destruct (truthy (get d k')) eqn:E.
    + rewrite (py_or_truthy _ _ E). by rewrite E.
    + rewrite (py_or_falsy _ _ E). apply IH.
Qed.

Lemma file_chain_value d :
  file_value d = if truthy (file_chain d) then Some (file_chain d) else None.
Proof.
  unfold file_value, file_chain.
  pose proof (or_chain_first_truthy d "path" ["resource"; "file"; "uri"]) as Hd.
  cbn [app foldr] in Hd. rewrite Hd. clear Hd.
  generalize (py_or (get d "resource")
                (py_or (get d "file") (py_or (get d "uri") (get d "path")))).
  intros fp. destruct (truthy fp) eqn:Efp.
  - destruct fp as [| | | | | |m]; try by rewrite Efp.
    apply (or_chain_first_truthy m "uri" ["path"; "fsPath"]).
  - destruct fp as [| | | | | |m]; try by rewrite Efp.
    assert (m = ∅) as ->.
    { simpl in Efp. apply map_size_empty_iff.
      by destruct (size m). }
    done.
Qed.

Lemma merge_get_file_value d :
  Merge.get_file d = from_option str "" (file_value d).
Proof.
  rewrite file_chain_value. unfold Merge.get_file. fold (file_chain d).
  by destruct (truthy (file_chain d)).
Qed.

Lemma report_get_file_value d :
  Report.get_file d = str <$> file_value d.
Proof.
  rewrite file_chain_value. unfold Report.get_file. fold (file_chain d).
  by destruct (truthy (file_chain d)).
Qed.

End Extraction.

(** ** C5 and C10: the derived file *)

(** C5, as stated, fails: the first key present is [resource], whose value
    is the empty text, yet both scripts derive the file from [file]. *)
Lemma file_skips_present_empty :
  file_by_presence (B:=Sample.builtins) empty_resource_record = ""
  ∧ Merge.get_file (B:=Sample.builtins) empty_resource_record = "a.c"
  ∧ Report.get_file (B:=Sample.builtins) empty_resource_record = Some "a.c".
Proof. by vm_compute. Qed.

Section File.
Context {B : Builtins}.

Lemma first_truthy_truthy (d : record) ks v :
  first_truthy d ks = Some v → truthy v = true.
Proof.
  induction ks as [|k ks IH]; simpl; [done|].
  destruct (truthy (get d k)) eqn:E; [|done]. by intros [= <-].
Qed.

Lemma file_value_truthy d v : file_value d = Some v → truthy v = true.
Proof.
  unfold file_value.
  destruct (first_truthy d _) as [w|] eqn:E; [|done].
  destruct w; try (intros [= <-]; by apply first_truthy_truthy in E).
  apply first_truthy_truthy.
Qed.

Lemma first_truthy_present (d : record) ks :
  (∀ k v, k ∈ ks → d !! k = Some v → truthy v = true) →
  first_truthy d ks = first_present d ks.
Proof.
  induction ks as [|k ks IH]; intros Hall; simpl; [done|].
  unfold get. destruct (d !! k) as [v|] eqn:E; simpl.
  - by rewrite (Hall k v) by (done || left).
  - apply IH. intros k' v' Hin. apply Hall. by right.
Qed.

End File.

(** C5, amended.  The derived file is the text of the first truthy value
    among those of [resource], [file], [uri], [path] and, if that value is a
    mapping, of the first truthy value among those of its [path], [fsPath],
    [uri]; with no such value the merge script gives the empty text and the
    report script an absent value.  When every one of these keys that is
    present holds a truthy value, this is the value of the first key
    present, as the specification words it. *)
Theorem file_is_first_truthy {B : Builtins} (d : record) :
  Merge.get_file d = from_option str "" (file_value d)
  ∧ Report.get_file d = str <$> file_value d
  ∧ (∀ v, file_value d = Some v → truthy v = true)
  ∧ ((∀ k v, k ∈ ["resource"; "file"; "uri"; "path"] →
             d !! k = Some v → truthy v = true) →
     (∀ m k v, first_present d ["resource"; "file"; "uri"; "path"] = Some (JDict m) →
               k ∈ ["path"; "fsPath"; "uri"] → m !! k = Some v → truthy v = true) →
     Merge.get_file d = file_by_presence d).
Proof.
  split_and!.
  - apply merge_get_file_value.
  - apply report_get_file_value.
  - apply file_value_truthy.
  - intros Houter Hinner. rewrite merge_get_file_value.
    unfold file_value, file_by_presence.
    rewrite first_truthy_present by done.
    destruct (first_present d _) as [w|] eqn:E; [|done].
    destruct w; try done.
    rewrite first_truthy_present by (intros k v; by apply Hinner).
    by destruct (first_present m _).
Qed.

(** C10.  The two scripts agree on the file: where the key's file is not
    empty the report derives that very text, and the report derives no file
    exactly when the key's file is empty. *)
Theorem file_identity_agrees {B : Builtins} (d : record) :
  (Merge.get_file d ≠ "" → Report.get_file d = Some (Merge.get_file d))
  ∧ (Report.get_file d = None ↔ Merge.get_file d = "").
Proof.
  rewrite merge_get_file_value, report_get_file_value.
  destruct (file_value d) as [v|] eqn:E; simpl; [|by split].
  split; [done|]. split; [done|].
  intros Hempty. by apply str_truthy_nonempty in Hempty;
    [|by apply (file_value_truthy d)].
Qed.

(** ** C4: line and column *)

(** C4, as stated, fails on the canonical key: texts that are no integers
    are unset in the report row, and stand as they are in the key. *)
Lemma key_position_not_coerced :
  coerced (B:=Sample.builtins) (JStr "abc") = None
  ∧ coerced (B:=Sample.builtins) (JStr "not-an-int") = None
  ∧ Report.get_pos (B:=Sample.builtins) text_position_record = Ok (None, None)
  ∧ Merge.get_pos (B:=Sample.builtins) text_position_record = ("abc", "not-an-int")
  ∧ Merge.get_pos (B:=Sample.builtins) text_position_record
    ≠ (marker None, marker None).
Proof. by vm_compute. Qed.

(** An infinite float as line: [int] raises [OverflowError], which
    [to_int_or_none] does not catch, and the report stops on it. *)
Lemma infinite_position_raises :
  let d : record := {[ "source" := JStr "clangd"; "message" := JStr "m";
                       "startLineNumber" := JFloat (S754_infinity false);
                       "startColumn" := JInt 1 ]} in
  let a := {| Report.source := "clangd"; Report.code := "";
              Report.message_contains := ""; Report.version := "";
              Report.day := ""; Report.max_items := 0 |} in
  Report.get_pos (B:=Sample.builtins) d = Raise OverflowError
  ∧ Report.exit_status (Report.main (B:=Sample.builtins) a (JList [JDict d]))
    = Report.Uncaught OverflowError.
Proof. by vm_compute. Qed.

Section Position.
Context {B : Builtins}.

(** [int] raises nothing but these three. *)
Lemma int_raises v e :
  int v = Raise e → e = TypeError ∨ e = ValueError ∨ e = OverflowError.
Proof.
  destruct v as [|b|z|f|s|l|m]; simpl; try (intros [= <-]; by auto); try done.
  - destruct f; simpl; try done; intros [= <-]; auto.
  - destruct (py_int_of_str s); [done|]. intros [= <-]. auto.
Qed.

Lemma to_int_or_none_coerced v :
  int v ≠ Raise OverflowError → Report.to_int_or_none v = Ok (coerced v).
Proof.
  intros Hno. unfold Report.to_int_or_none, coerced.
  destruct (is_none v) eqn:En; [by destruct v|].
  destruct (int v) as [z|e] eqn:E; [done|].
  by destruct (int_raises v e E) as [->|[->| ->]].
Qed.

Lemma dict_or_empty_get_default (d : record) k :
  Report.dict_or_empty (get_default d k (JDict ∅)) = sub d k.
Proof. unfold sub, get_default, get. by destruct (d !! k). Qed.

Lemma report_get_pos_fields d :
  Report.get_pos d
  = coerce_pair (if both_present (direct_position d) then direct_position d
                 else range_position d).
Proof.
  unfold Report.get_pos, both_present, direct_position, range_position. simpl.
  rewrite !dict_or_empty_get_default.
  by destruct (negb (is_none (get d "startLineNumber"))
               && negb (is_none (get d "startColumn"))).
Qed.

Lemma merge_get_pos_fields d :
  Merge.get_pos d
  = let p := if both_present (direct_position d) then direct_position d
             else if range_usable d then range_position d
                  else direct_position d in
    (Merge.str_or_empty (fst p), Merge.str_or_empty (snd p)).
Proof.
  unfold Merge.get_pos, both_present, direct_position. cbn [fst snd].
  destruct (negb (is_none (get d "startLineNumber"))
            && negb (is_none (get d "startColumn"))) eqn:Eboth.
  - apply andb_prop in Eboth as [El Ec]. cbv zeta. cbn [fst snd].
    unfold Merge.str_or_empty.
    by destruct (is_none (get d "startLineNumber")),
                (is_none (get d "startColumn")).
  - cbv zeta. unfold range_usable, mapping_or_missing, range_position, sub.
    unfold get_default.
    change (get d "range") with (default JNull (d !! "range")).
    destruct (d !! "range") as [[| | | | | |r]|]; simpl; try done.
    change (get r "start") with (default JNull (r !! "start")).
    by destruct (r !! "start") as [[| | | | | |s]|].
Qed.

Lemma writerow_ok row r : Report.writerow row = Ok r → r = row.
Proof.
  unfold Report.writerow. destruct (forallb _ row); [|done]. by intros [= <-].
Qed.

Lemma writerow_encodable row :
  Report.writerow row
  = if forallb Report.encodable_cell row then Ok row else Raise ValueError.
Proof. done. Qed.

(** A row that is written is the row computed from the record. *)
Lemma detailed_row_ok a d row :
  Report.detailed_row a d = Ok row →
  ∃ l c,
    Report.get_pos d = Ok (l, c)
    ∧ row = [ Report.CStr (Report.sanitize_csv_cell (JStr (Report.day a)));
              Report.CStr (Report.sanitize_csv_cell (JStr (Report.version a)));
              Report.CStr (Report.sanitize_csv_cell
                             (JStr (default "" (Report.get_file d))));
              Report.pos_cell l;
              Report.pos_cell c;
              Report.CStr (Report.sanitize_csv_cell
                             (py_or (Report.get_code d) (JStr "")));
              Report.CStr (Report.sanitize_csv_cell
                             (get_default d "source" (JStr "")));
              Report.CStr (Report.sanitize_csv_cell
                             (get_default d "message" (JStr ""))) ].
Proof.
  unfold Report.detailed_row.
  destruct (Report.get_pos d) as [[l c]|e]; cbn [bind]; [|done].
  intros Hrow%writerow_ok. by exists l, c.
Qed.

End Position.

(** The key keeps a direct field when [range] is no mapping, and drops it
    when [range] is missing; the report reads under [range.start] in both
    cases, and finds nothing. *)
Lemma direct_field_kept_in_key :
  Merge.get_pos (B:=Sample.builtins) text_range_record = ("5", "")
  ∧ Report.get_pos (B:=Sample.builtins) text_range_record = Ok (None, None)
  ∧ Merge.get_pos (B:=Sample.builtins) line_only_record = ("", "")
  ∧ Report.get_pos (B:=Sample.builtins) line_only_record = Ok (None, None).
Proof. by vm_compute. Qed.

(** C4, amended.  In the report, a line or column is coerced by [int]: the
    integer when [int] gives one, the unset marker when the value is absent
    or when [int] raises [TypeError] or [ValueError]; the values the report
    reads are the direct fields when both are present and those under
    [range.start] otherwise, a [range] or [range.start] that is no mapping
    counting as an empty one, and the row holds the two outcomes as its line
    and column cells.  In the canonical key nothing is coerced and the
    extraction raises nothing: line and column are the texts of two values,
    empty for an absent one, and the values are the direct fields when both
    are present; otherwise those under [range.start] when [range] and
    [range.start] are each a mapping or missing; otherwise, [range] or
    [range.start] being present and no mapping, the direct fields as they
    are. *)
Theorem position_extraction {B : Builtins} (d : record) :
  (∀ v, int v ≠ Raise OverflowError → Report.to_int_or_none v = Ok (coerced v))
  ∧ (∀ v, is_none v = true → Report.to_int_or_none v = Ok None)
  ∧ Report.get_pos d
    = coerce_pair (if both_present (direct_position d) then direct_position d
                   else range_position d)
  ∧ (∀ a row, Report.detailed_row a d = Ok row →
       ∃ l c, Report.get_pos d = Ok (l, c)
              ∧ row !! 3 = Some (Report.pos_cell l)
              ∧ row !! 4 = Some (Report.pos_cell c))
  ∧ Merge.get_pos d
    = (let p := if both_present (direct_position d) then direct_position d
                else if range_usable d then range_position d
                     else direct_position d in
       (Merge.str_or_empty (fst p), Merge.str_or_empty (snd p))).
Proof.
  split_and!.
  - apply to_int_or_none_coerced.
  - intros v Hv. unfold Report.to_int_or_none. by rewrite Hv.
  - apply report_get_pos_fields.
  - intros a row (l & c & Hpos & ->)%detailed_row_ok. by exists l, c.
  - apply merge_get_pos_fields.
Qed.

(** ** The report tables *)

(** C6.  The rows of the per-file table have two cells, the file and the
    count, under a header of four: on the document of the repository's own
    test, the row that the test expects to start with the day and the
    version is [a.c; 1]. *)
Theorem simple_row_lacks_day_version :
  Report.out_simple
    (Report.main (B:=Sample.builtins) day_version_args day_version_payload)
  = Some [ Report.simple_header; [Report.CStr "a.c"; Report.CInt 1] ]
  ∧ length Report.simple_header = 4
  ∧ (∀ e, length (Report.simple_row (B:=Sample.builtins) e) = 2).
Proof. split_and!; [by vm_compute|done|done]. Qed.

Section Gate.
Context {B : Builtins}.

Lemma dicts_of_fmap (l : list record) : dicts_of (JDict <$> l) = l.
Proof.
  unfold dicts_of. induction l as [|d l IH]; [done|].
  rewrite fmap_cons. cbn [omap list_omap]. by rewrite IH.
Qed.

Lemma filter_filter_same {A} (f : A → bool) (l : list A) :
  List.filter f (List.filter f l) = List.filter f l.
Proof.
  induction l as [|x l IH]; [done|]. simpl.
  destruct (f x) eqn:E; [|done]. simpl. by rewrite E, IH.
Qed.

Lemma valid_items_without_invalid data :
  Report.valid_items (without_invalid data) = Report.valid_items data.
Proof.
  unfold without_invalid, Report.valid_items at 1. simpl.
  rewrite dicts_of_fmap. apply filter_filter_same.
Qed.

Lemma extract_items_without_invalid data :
  Report.extract_items (without_invalid data) = Report.valid_items data.
Proof. unfold without_invalid. simpl. apply dicts_of_fmap. Qed.

Lemma filtered_without_invalid a data :
  Report.filtered a (without_invalid data) = Report.filtered a data.
Proof. unfold Report.filtered. by rewrite valid_items_without_invalid. Qed.

Lemma filtered_valid a data d :
  d ∈ Report.filtered a data → Report.is_valid_diagnostic_item d = true.
Proof.
  unfold Report.filtered, Report.valid_items. intros Hin.
  assert (d ∈ List.filter (Report.keep a)
                (List.filter Report.is_valid_diagnostic_item
                   (Report.extract_items data))) as Hin'.
  { destruct (0 <? Report.max_items a)%Z; [|done].
    by eapply subseteq_take. }
  apply list_elem_of_In, filter_In in Hin' as [Hin' _].
  by apply filter_In in Hin' as [_ ?].
Qed.

Lemma main_skipped a data :
  Report.skipped_count (Report.main a data)
  = length (Report.extract_items data) - length (Report.valid_items data).
Proof.
  unfold Report.main. destruct (_ <? _)%Z; [done|]. cbv zeta.
  destruct (Report.write_simple _) as [rows [e|]]; [done|].
  by destruct (Report.write_rows _ _).
Qed.

Lemma main_tables a data :
  (Report.max_items a <? 0)%Z = false →
  Report.out_simple (Report.main a data)
  = Some (Report.simple_header
          :: fst (Report.write_simple
                    (Report.most_common (Report.per_file (Report.filtered a data)))))
  ∧ Report.out_detailed (Report.main a data)
    = match snd (Report.write_simple
                   (Report.most_common (Report.per_file (Report.filtered a data))))
      with
      | Some _ => None
      | None => Some (Report.detailed_header
                      :: fst (Report.write_rows a (Report.filtered a data)))
      end
  ∧ Report.exit_status (Report.main a data)
    = match snd (Report.write_simple
                   (Report.most_common (Report.per_file (Report.filtered a data))))
      with
      | Some e => Report.Uncaught e
      | None =>
          match snd (Report.write_rows a (Report.filtered a data)) with
          | Some e => Report.Uncaught e
          | None => Report.Exit 0
          end
      end.
Proof.
  intros Hmax. unfold Report.main. rewrite Hmax. cbv zeta.
  destruct (Report.write_simple _) as [rows [e|]]; [done|].
  by destruct (Report.write_rows _ _).
Qed.

(** The per-file rows that are written are the first rows of the ranking,
    all of them when nothing is raised. *)
Lemma write_simple_prefix l :
  fst (Report.write_simple l) `prefix_of` map Report.simple_row l.
Proof.
  induction l as [|e l IH]; [done|]. cbn [Report.write_simple map].
  rewrite writerow_encodable.
  destruct (forallb _ _); [|apply prefix_nil].
  destruct (Report.write_simple l) as [rows x]. by apply prefix_cons.
Qed.

Lemma write_simple_complete l :
  snd (Report.write_simple l) = None →
  fst (Report.write_simple l) = map Report.simple_row l.
Proof.
  induction l as [|e l IH]; [done|]. cbn [Report.write_simple map].
  rewrite writerow_encodable.
  destruct (forallb _ _); [|done].
  destruct (Report.write_simple l) as [rows x]. simpl in *.
  intros Hx. by rewrite IH.
Qed.

Lemma write_simple_from l row :
  row ∈ fst (Report.write_simple l) → ∃ e, e ∈ l ∧ row = Report.simple_row e.
Proof.
  intros Hin. destruct (write_simple_prefix l) as [rest Hrest].
  assert (row ∈ map Report.simple_row l) as Hrow.
  { rewrite Hrest. apply elem_of_app. by left. }
  apply list_elem_of_In, in_map_iff in Hrow as (e & <- & He).
  exists e. split; [by apply list_elem_of_In|done].
Qed.

End Gate.

(** C7.  A record whose [source] or [message] is not a string is in neither
    table: no row is made from it, the rows of both tables being written
    from the filtered records (the per-file rows from their ranking, the
    detailed rows, when that table is reached, from the records
    themselves), and the two tables are those of the document without such
    records; their number is the skipped count of the run. *)
Theorem invalid_items_skipped {B : Builtins} (a : Report.args) (data : json) :
  let r := Report.main a data in
  let items := Report.extract_items data in
  Report.skipped_count r
  = length (List.filter
              (fun d => negb (Report.is_str (get d "source"))
                        || negb (Report.is_str (get d "message"))) items)
  ∧ (∀ d, Report.is_str (get d "source") = false
          ∨ Report.is_str (get d "message") = false →
          d ∉ Report.filtered a data)
  ∧ Report.out_simple r = Report.out_simple (Report.main a (without_invalid data))
  ∧ Report.out_detailed r
    = Report.out_detailed (Report.main a (without_invalid data))
  ∧ Report.skipped_count (Report.main a (without_invalid data)) = 0
  ∧ ((Report.max_items a <? 0)%Z = false →
     Report.out_simple r
     = Some (Report.simple_header
             :: fst (Report.write_simple
                       (Report.most_common
                          (Report.per_file (Report.filtered a data)))))
     ∧ (Report.out_detailed r = None
        ∨ Report.out_detailed r
          = Some (Report.detailed_header
                  :: fst (Report.write_rows a (Report.filtered a data))))).
Proof.
  intros r items. subst r items. split_and!.
  - rewrite main_skipped.
    unfold Report.valid_items.
    pose proof (List.filter_length Report.is_valid_diagnostic_item
                  (Report.extract_items data)) as Hlen.
    assert (∀ l : list record,
              List.filter (fun x => negb (Report.is_valid_diagnostic_item x)) l
              = List.filter (fun d => negb (Report.is_str (get d "source"))
                                      || negb (Report.is_str (get d "message"))) l)
      as <-.
    { intros l. apply List.filter_ext. intros d.
      unfold Report.is_valid_diagnostic_item. apply negb_andb. }
    lia.
  - intros d Hbad Hin. apply filtered_valid in Hin.
    unfold Report.is_valid_diagnostic_item in Hin.
    apply andb_prop in Hin as [Hs Hm]. destruct Hbad; congruence.
  - destruct (Report.max_items a <? 0)%Z eqn:Hmax.
    + unfold Report.main. by rewrite Hmax.
    + destruct (main_tables a data Hmax) as (-> & _).
      destruct (main_tables a (without_invalid data) Hmax) as (-> & _).
      by rewrite filtered_without_invalid.
  - destruct (Report.max_items a <? 0)%Z eqn:Hmax.
    + unfold Report.main. by rewrite Hmax.
    + destruct (main_tables a data Hmax) as (_ & -> & _).
      destruct (main_tables a (without_invalid data) Hmax) as (_ & -> & _).
      by rewrite filtered_without_invalid.
  - rewrite main_skipped.
    rewrite extract_items_without_invalid, valid_items_without_invalid. lia.
  - intros Hmax. destruct (main_tables a data Hmax) as (-> & -> & _).
    split; [done|]. destruct (snd _); [by left|by right].
Qed.

Section Cells.
Context {B : Builtins}.

Lemma trigger_existsb c (l : list ascii) :
  existsb (Ascii.eqb c) l = bool_decide (c ∈ l).
Proof.
  induction l as [|x l IH]; [done|]. cbn [existsb].
  destruct (Ascii.eqb_spec c x) as [->|Hne]; simpl.
  {
    symmetry. apply bool_decide_eq_true_2. left. }
  rewrite IH. apply bool_decide_ext. rewrite elem_of_cons. naive_solver.
Qed.

Lemma sanitize_neutralized v :
  Report.sanitize_csv_cell v = neutralized (if is_none v then "" else str v).
Proof.
  unfold Report.sanitize_csv_cell, neutralized, starts_with_trigger.
  destruct (if is_none v then "" else str v) as [|c s]; [done|].
  by rewrite trigger_existsb.
Qed.

Lemma write_rows_from a l row :
  row ∈ fst (Report.write_rows a l) →
  ∃ d, d ∈ l ∧ Report.detailed_row a d = Ok row.
Proof.
  induction l as [|d l IH]; simpl; [by intros ?%elem_of_nil|].
  destruct (Report.detailed_row a d) as [r|e] eqn:E; simpl;
    [|by intros ?%elem_of_nil].
  destruct (Report.write_rows a l) as [rows e]. simpl in *.
  intros [->|Hin]%elem_of_cons.
  - exists d. split; [left|done].
  - destruct (IH Hin) as (d' & Hd' & Hrow). exists d'. split; [by right|done].
Qed.

Lemma write_rows_complete a l :
  snd (Report.write_rows a l) = None →
  length (fst (Report.write_rows a l)) = length l.
Proof.
  induction l as [|d l IH]; simpl; [done|].
  destruct (Report.detailed_row a d); [|done].
  destruct (Report.write_rows a l) as [rows e]. simpl in *.
  intros He. by rewrite IH.
Qed.

Lemma or_empty_not_none v : is_none (py_or v (JStr "")) = false.
Proof. unfold py_or. destruct (truthy v) eqn:E; [by destruct v|done]. Qed.

Lemma utf8_encodable_quote s :
  utf8_encodable (String "'" s) = utf8_encodable s.
Proof. by destruct s. Qed.

(** The marker does not change whether a text encodes. *)
Lemma neutralized_encodable s :
  utf8_encodable (neutralized s) = utf8_encodable s.
Proof.
  unfold neutralized. destruct (starts_with_trigger s); [|done].
  apply utf8_encodable_quote.
Qed.

Lemma simple_row_encodable e :
  forallb Report.encodable_cell (Report.simple_row e) = utf8_encodable (fst e).
Proof.
  unfold Report.simple_row. cbn [forallb Report.encodable_cell].
  rewrite sanitize_neutralized. cbn [is_none str].
  rewrite neutralized_encodable. by destruct (utf8_encodable _).
Qed.

Lemma write_simple_encodable l :
  Forall (fun e => utf8_encodable (fst e) = true) l →
  snd (Report.write_simple l) = None.
Proof.
  induction 1 as [|e l He _ IH]; [done|]. cbn [Report.write_simple].
  rewrite writerow_encodable, simple_row_encodable, He.
  destruct (Report.write_simple l). by simpl in *.
Qed.

End Cells.

(** ** The per-file summary *)

Section Summary.
Context {B : Builtins}.

Lemma insert_desc_perm x l : Report.insert_desc x l ≡ₚ x :: l.
Proof.
  induction l as [|y l IH]; simpl; [done|].
  destruct (Nat.ltb (snd x) (snd y)); [|done].
  rewrite IH. apply Permutation_swap.
Qed.

Lemma most_common_perm c : Report.most_common c ≡ₚ c.
Proof.
  induction c as [|x c IH]; simpl; [done|].
  fold (Report.most_common c). by rewrite insert_desc_perm, IH.
Qed.

Lemma insert_desc_sorted x l :
  StronglySorted at_least l → StronglySorted at_least (Report.insert_desc x l).
Proof.
  induction l as [|y l IH]; intros Hs; simpl.
  - repeat constructor.
  - apply StronglySorted_inv in Hs as [Hs Hy].
    destruct (Nat.ltb_spec (snd x) (snd y)) as [Hlt|Hge].
    + constructor; [by apply IH|].
      rewrite insert_desc_perm. constructor; [|done].
      unfold at_least. lia.
    + constructor; [by constructor|].
      constructor; [unfold at_least; lia|].
      eapply Forall_impl; [exact Hy|]. unfold at_least. intros z. simpl. lia.
Qed.

Lemma most_common_sorted c : StronglySorted at_least (Report.most_common c).
Proof.
  induction c as [|x c IH]; simpl; [constructor|].
  by apply insert_desc_sorted.
Qed.



End Summary.

Section Counter.
Context {B : Builtins}.

Lemma elem_of_first_seen x l : x ∈ first_seen l ↔ x ∈ l.
Proof.
  induction l as [|y l IH]; simpl; [done|].
  rewrite !elem_of_cons, list_elem_of_filter, IH.
  destruct (decide (x = y)); naive_solver.
Qed.

Lemma first_seen_NoDup l : NoDup (first_seen l).
Proof.
  induction l as [|y l IH]; simpl; [constructor|].
  constructor; [|by apply NoDup_filter].
  rewrite list_elem_of_filter. naive_solver.
Qed.

Lemma first_seen_snoc l x :
  first_seen (l ++ [x])
  = if decide (x ∈ l) then first_seen l else first_seen l ++ [x].
Proof.
  induction l as [|y l IH]; simpl; [done|].
  rewrite IH. destruct (decide (x ∈ l)) as [Hin|Hnin].
  - rewrite decide_True; [done|by right].
  - rewrite filter_app, filter_cons, filter_nil.
    destruct (decide (x = y)) as [->|Hne].
    + rewrite (decide_True (P := y ∈ y :: l)) by left.
      rewrite (decide_False (P := y ≠ y)) by naive_solver.
      by rewrite app_nil_r.
    + rewrite (decide_False (P := x ∈ y :: l))
        by (rewrite elem_of_cons; naive_solver).
      by rewrite (decide_True (P := x ≠ y)) by done.
Qed.

Lemma occurrences_snoc g fs f :
  occurrences g (fs ++ [f])
  = occurrences g fs + (if decide (f = g) then 1 else 0).
Proof.
  unfold occurrences. rewrite filter_app, length_app, filter_cons, filter_nil.
  by destruct (decide (f = g)).
Qed.

Lemma occurrences_notin f fs : f ∉ fs → occurrences f fs = 0.
Proof.
  intros Hnin. unfold occurrences.
  induction fs as [|g fs IH]; [done|].
  rewrite filter_cons. apply not_elem_of_cons in Hnin as [Hne Hnin].
  rewrite decide_False by done. by apply IH.
Qed.

Lemma counter_incr_in f (h : string → nat) ks :
  NoDup ks → f ∈ ks →
  Report.counter_incr f (map (fun g => (g, h g)) ks)
  = map (fun g => (g, h g + (if decide (f = g) then 1 else 0))) ks.
Proof.
  induction ks as [|k ks IH]; intros Hnd Hin; [by apply elem_of_nil in Hin|].
  apply NoDup_cons in Hnd as [Hk Hnd]. simpl.
  destruct (String.eqb_spec k f) as [->|Hne].
  - rewrite decide_True by done. f_equal; [f_equal; lia|].
    apply map_ext_in. intros g Hg%list_elem_of_In.
    rewrite decide_False; [f_equal; lia|]. by intros ->.
  - rewrite decide_False by done. f_equal; [f_equal; lia|].
    apply IH; [done|]. apply elem_of_cons in Hin as [->|Hin]; done.
Qed.

Lemma counter_incr_notin f (h : string → nat) ks :
  f ∉ ks →
  Report.counter_incr f (map (fun g => (g, h g)) ks)
  = map (fun g => (g, h g)) ks ++ [(f, 1)].
Proof.
  induction ks as [|k ks IH]; intros Hnin; [done|].
  apply not_elem_of_cons in Hnin as [Hne Hnin]. simpl.
  destruct (String.eqb_spec k f) as [->|_]; [done|]. by rewrite IH.
Qed.

Lemma counter_incr_groups f fs :
  Report.counter_incr f (groups fs) = groups (fs ++ [f]).
Proof.
  unfold groups. rewrite first_seen_snoc.
  destruct (decide (f ∈ fs)) as [Hin|Hnin].
  - rewrite counter_incr_in;
      [|apply first_seen_NoDup|by apply elem_of_first_seen].
    apply map_ext. intros g. by rewrite occurrences_snoc.
  - rewrite counter_incr_notin by by rewrite elem_of_first_seen.
    rewrite map_app. simpl. f_equal.
    + apply map_ext_in. intros g Hg%list_elem_of_In.
      rewrite elem_of_first_seen in Hg.
      rewrite occurrences_snoc, decide_False; [f_equal; lia|].
      intros Heq. apply Hnin. by rewrite Heq.
    + by rewrite occurrences_snoc, decide_True, occurrences_notin.
Qed.

Lemma tally_groups fs :
  fold_left (fun c f => Report.counter_incr f c) fs [] = groups fs.
Proof.
  induction fs as [|f fs IH] using rev_ind; [done|].
  by rewrite fold_left_app, IH, <-counter_incr_groups.
Qed.

Lemma count_file_files l c :
  fold_left Report.count_file l c
  = fold_left (fun c f => Report.counter_incr f c) (report_files l) c.
Proof.
  revert c. induction l as [|d l IH]; intros c; [done|].
  simpl. rewrite IH. unfold report_files. simpl. rewrite filter_cons.
  unfold Report.count_file at 1.
  destruct (Report.get_file d) as [fp|]; simpl.
  - destruct (String.eqb_spec fp "") as [->|Hne].
    + by rewrite decide_False by naive_solver.
    + by rewrite decide_True by done.
  - done.
Qed.

Lemma per_file_groups l : Report.per_file l = groups (report_files l).
Proof. unfold Report.per_file. by rewrite count_file_files, tally_groups. Qed.

Lemma elem_of_groups fs f n :
  (f, n) ∈ groups fs ↔ f ∈ fs ∧ n = occurrences f fs.
Proof.
  unfold groups. rewrite list_elem_of_In, in_map_iff. split.
  - intros (g & [= -> ->] & Hin).
    split; [|done]. by apply elem_of_first_seen, list_elem_of_In.
  - intros [Hin ->]. exists f. split; [done|].
    by apply list_elem_of_In, elem_of_first_seen.
Qed.

End Counter.
(** C8.  Every textual cell of the two tables holds its value with the
    marker in front when the value starts with one of [=], [+], [-], [@],
    and the value itself otherwise: day, version, file, code, source and
    message in a detailed row, the file in a per-file row.  The line and
    column cells are the integer or the empty cell, written as they are: a
    negative line is written with its sign and no marker. *)
Theorem cells_are_sanitized {B : Builtins} (a : Report.args) (data : json) :
  (∀ s, Report.sanitize_csv_cell (JStr s) = neutralized s)
  ∧ (∀ s, neutralized s
          = if starts_with_trigger s then String "'" s else s)
  ∧ (∀ rows row, Report.out_detailed (Report.main a data) = Some rows →
       row ∈ tail rows →
       ∃ d l c src msg,
         d ∈ Report.filtered a data
         ∧ get d "source" = JStr src ∧ get d "message" = JStr msg
         ∧ Report.get_pos d = Ok (l, c)
         ∧ row = [ Report.CStr (neutralized (Report.day a));
                   Report.CStr (neutralized (Report.version a));
                   Report.CStr (neutralized (default "" (Report.get_file d)));
                   Report.pos_cell l;
                   Report.pos_cell c;
                   Report.CStr (neutralized (str (py_or (Report.get_code d) (JStr ""))));
                   Report.CStr (neutralized src);
                   Report.CStr (neutralized msg) ])
  ∧ (∀ rows row, Report.out_simple (Report.main a data) = Some rows →
       row ∈ tail rows →
       ∃ f n, (f, n) ∈ Report.per_file (Report.filtered a data)
              ∧ row = [Report.CStr (neutralized f); Report.CInt (Z.of_nat n)])
  ∧ (∀ z, render (Report.pos_cell (Some z)) = pretty z)
  ∧ render (Report.pos_cell None) = "".
Proof.
  split_and!; [intros s; apply sanitize_neutralized|done| | |done|done].
  - intros rows row Hout Hrow.
    destruct (Report.max_items a <? 0)%Z eqn:Hmax.
    { unfold Report.main in Hout. by rewrite Hmax in Hout. }
    destruct (main_tables a data Hmax) as (_ & Hdet & _).
    rewrite Hdet in Hout. destruct (snd (Report.write_simple _)); [done|].
    injection Hout as <-. simpl in Hrow.
    apply write_rows_from in Hrow as (d & Hd & Hrow).
    pose proof (filtered_valid a data d Hd) as Hvalid.
    unfold Report.is_valid_diagnostic_item in Hvalid.
    apply andb_prop in Hvalid as [Hs Hm].
    destruct (get d "source") as [| | | |src| |] eqn:Esrc; try done.
    destruct (get d "message") as [| | | |msg| |] eqn:Emsg; try done.
    apply detailed_row_ok in Hrow as (l & c & Epos & ->).
    exists d, l, c, src, msg. split_and!; try done.
    rewrite !sanitize_neutralized.
    cbn [is_none]. rewrite or_empty_not_none.
    assert (∀ k s, get d k = JStr s → get_default d k (JStr "") = JStr s) as Hdef.
    { intros k s. unfold get, get_default. by destruct (d !! k); simpl; [|done]. }
    by rewrite (Hdef _ _ Esrc), (Hdef _ _ Emsg).
  - intros rows row Hout Hrow.
    destruct (Report.max_items a <? 0)%Z eqn:Hmax.
    { unfold Report.main in Hout. by rewrite Hmax in Hout. }
    destruct (main_tables a data Hmax) as (Hsim & _).
    rewrite Hsim in Hout. injection Hout as <-. simpl in Hrow.
    apply write_simple_from in Hrow as ([f n] & Hin & ->).
    exists f, n. split.
    + by rewrite <-(most_common_perm (Report.per_file (Report.filtered a data))).
    + unfold Report.simple_row. by rewrite sanitize_neutralized.
Qed.


(** ** More on the merge script *)

Section MergeMore.
Context {B : Builtins}.

Lemma dicts_of_filter (l : list json) :
  JDict <$> dicts_of l = List.filter is_dict l.
Proof.
  unfold dicts_of. induction l as [|v l IH]; [done|].
  destruct v; cbn [omap list_omap List.filter is_dict]; try done.
  by rewrite fmap_cons, IH.
Qed.

Lemma extract_wrapped_skip (m : record) before ks :
  Forall (fun k => is_list (get m k) = false) before →
  Merge.extract_wrapped m (before ++ ks) = Merge.extract_wrapped m ks.
Proof.
  induction 1 as [|k before Hk _ IH]; [done|]. simpl.
  by destruct (get m k).
Qed.

Lemma extract_wrapped_none (m : record) ks :
  Forall (fun k => is_list (get m k) = false) ks →
  Merge.extract_wrapped m ks = [].
Proof.
  induction 1 as [|k ks Hk _ IH]; [done|]. simpl.
  by destruct (get m k).
Qed.

(** The loop started on the set [seen] keeps one record per key that is new
    with respect to [seen]. *)
Lemma dedup_loop_keys (seen : gset Merge.key) (l : list record) :
  NoDup (Merge.diag_key <$> Merge.dedup_loop seen [] l)
  ∧ (∀ k, k ∈ (Merge.diag_key <$> Merge.dedup_loop seen [] l)
          ↔ k ∈ (Merge.diag_key <$> l) ∧ k ∉ seen).
Proof.
  revert seen. induction l as [|d l IH]; intros seen.
  - split; [constructor|]. intros k. simpl. rewrite elem_of_nil. naive_solver.
  - destruct (decide (Merge.diag_key d ∈ seen)) as [Hin|Hnin].
    + rewrite dedup_loop_cons_seen by done.
      destruct (IH seen) as [Hnd Hkeys]. split; [done|].
      intros k. rewrite Hkeys, fmap_cons, elem_of_cons.
      split; [naive_solver|]. intros [[->|?] ?]; done.
    + rewrite dedup_loop_cons_new by done.
      destruct (IH ({[Merge.diag_key d]} ∪ seen)) as [Hnd Hkeys].
      rewrite !fmap_cons. split.
      * constructor; [|done]. rewrite Hkeys. set_solver.
      * intros k. rewrite !elem_of_cons, Hkeys.
        rewrite elem_of_union, elem_of_singleton.
        destruct (decide (k = Merge.diag_key d)) as [->|]; naive_solver.
Qed.

End MergeMore.

(** X1.  [extract_items] on the shapes of a document: a bare list gives its
    mappings, in order; a mapping gives the mappings of the list under the
    first of [problems], [diagnostics], [items], [data] whose value is a
    list, earlier keys with another value being passed over; a mapping with
    no such key, and any other value, give nothing.  The copy of the
    function in the report script gives the same. *)
Theorem extract_items_shapes (data : json) :
  (∀ l, data = JList l →
        JDict <$> Merge.extract_items data = List.filter is_dict l)
  ∧ (∀ m before k after l,
       data = JDict m → wrapper_keys = before ++ k :: after →
       Forall (fun k' => is_list (get m k') = false) before →
       get m k = JList l →
       Merge.extract_items data = Merge.extract_items (JList l))
  ∧ (∀ m, data = JDict m →
          Forall (fun k => is_list (get m k) = false) wrapper_keys →
          Merge.extract_items data = [])
  ∧ (is_list data = false → is_dict data = false → Merge.extract_items data = [])
  ∧ Report.extract_items data = Merge.extract_items data.
Proof.
  split_and!.
  - intros l ->. apply dicts_of_filter.
  - intros m before k after l -> Hkeys Hbefore Hk.
    change (Merge.extract_items (JDict m))
      with (Merge.extract_wrapped m wrapper_keys).
    rewrite Hkeys, extract_wrapped_skip by done. simpl. by rewrite Hk.
  - intros m -> Hnone. by apply extract_wrapped_none.
  - by destruct data.
  - done.
Qed.

(** X2.  The output of the deduplication has pairwise distinct keys, and
    every key of the input is the key of one of its records; it is never
    longer than the input. *)
Theorem dedup_output_keys {B : Builtins} (l : list record) :
  NoDup (Merge.diag_key <$> Merge.dedup l)
  ∧ (∀ k, k ∈ (Merge.diag_key <$> Merge.dedup l) ↔ k ∈ (Merge.diag_key <$> l))
  ∧ (length (Merge.dedup l) <= length l)%nat.
Proof.
  destruct (dedup_loop_keys ∅ l) as [Hnd Hkeys]. split_and!.
  - exact Hnd.
  - intros k. unfold Merge.dedup. rewrite Hkeys. set_solver.
  - apply sublist_length, dedup_sublist.
Qed.

Section Shapes.
Context {B : Builtins}.

Lemma get_to_range_shape (d : record) k :
  k ≠ "range" → k ≠ "startLineNumber" → k ≠ "startColumn" →
  get (to_range_shape d) k = get d k.
Proof.
  intros H1 H2 H3. unfold get, to_range_shape.
  by rewrite lookup_insert_ne, !lookup_delete_ne by done.
Qed.

Lemma get_file_to_range_shape d :
  Merge.get_file (to_range_shape d) = Merge.get_file d.
Proof. unfold Merge.get_file. by rewrite !get_to_range_shape by done. Qed.

Lemma get_code_to_range_shape d :
  Merge.get_code (to_range_shape d) = Merge.get_code d.
Proof. unfold Merge.get_code. by rewrite !get_to_range_shape by done. Qed.

Lemma get_pos_direct d :
  is_none (get d "startLineNumber") = false →
  is_none (get d "startColumn") = false →
  Merge.get_pos d = (str (get d "startLineNumber"), str (get d "startColumn")).
Proof. intros Hl Hc. unfold Merge.get_pos. by rewrite Hl, Hc. Qed.

Lemma get_pos_to_range_shape d :
  is_none (get d "startLineNumber") = false →
  is_none (get d "startColumn") = false →
  Merge.get_pos (to_range_shape d)
  = (str (get d "startLineNumber"), str (get d "startColumn")).
Proof.
  intros Hl Hc. unfold Merge.get_pos.
  assert (get (to_range_shape d) "startLineNumber" = JNull) as ->.
  { unfold get, to_range_shape.
    by rewrite lookup_insert_ne, lookup_delete_eq by done. }
  cbn [is_none negb andb].
  assert (get_default (to_range_shape d) "range" (JDict ∅)
          = JDict {[ "start" :=
              JDict {[ "line" := get d "startLineNumber";
                       "character" := get d "startColumn" ]} ]}) as ->.
  { unfold get_default, to_range_shape. by rewrite lookup_insert_eq. }
  unfold get_default. rewrite lookup_singleton_eq. cbn [from_option id].
  unfold Merge.str_or_empty.
  assert (∀ (l c : json),
            get ({[ "line" := l; "character" := c ]} : record) "line" = l
            ∧ get ({[ "line" := l; "character" := c ]} : record) "character" = c)
    as Hget.
  { intros l c. unfold get. split.
    - by rewrite lookup_insert_eq.
    - by rewrite lookup_insert_ne, lookup_singleton_eq by done. }
  destruct (Hget (get d "startLineNumber") (get d "startColumn")) as [-> ->].
  by rewrite Hl, Hc.
Qed.

End Shapes.

(** X3.  Two shapes of one diagnostic are one diagnostic: a record that
    gives its position in [startLineNumber] and [startColumn], and the same
    record giving it under [range.start] instead, have the same canonical
    key, so that the second is dropped when both are merged. *)
Theorem position_shapes_same_key {B : Builtins} (d : record) :
  is_none (get d "startLineNumber") = false →
  is_none (get d "startColumn") = false →
  Merge.diag_key (to_range_shape d) = Merge.diag_key d
  ∧ Merge.dedup [d; to_range_shape d] = [d].
Proof.
  intros Hl Hc.
  assert (Merge.diag_key (to_range_shape d) = Merge.diag_key d) as Hkey.
  { unfold Merge.diag_key.
    rewrite get_pos_to_range_shape, get_pos_direct by done.
    rewrite get_file_to_range_shape, get_code_to_range_shape.
    by rewrite get_to_range_shape by done. }
  split; [done|]. unfold Merge.dedup.
  rewrite dedup_loop_cons_new by apply not_elem_of_empty.
  rewrite dedup_loop_cons_seen; [done|]. rewrite Hkey. set_solver.
Qed.

(** The two shapes of [direct_shape_record] merge into one. *)
Lemma position_shapes_same_key_witness :
  is_none (get direct_shape_record "startLineNumber") = false
  ∧ is_none (get direct_shape_record "startColumn") = false
  ∧ Merge.diag_key (B:=Sample.builtins) (to_range_shape direct_shape_record)
  = Merge.diag_key (B:=Sample.builtins) direct_shape_record
  ∧ Merge.dedup (B:=Sample.builtins)
      [direct_shape_record; to_range_shape direct_shape_record]
    = [direct_shape_record].
Proof.
  split; [reflexivity|]. split; [reflexivity|].
  apply (position_shapes_same_key (B:=Sample.builtins) direct_shape_record);
    reflexivity.
Defined.

(** ** More on the report script *)

Section Filters.
Context {B : Builtins}.

Lemma append_nil (s : string) : "" +:+ s = s.
Proof. reflexivity. Qed.

Lemma append_cons c (s t : string) : String c s +:+ t = String c (s +:+ t).
Proof. reflexivity. Qed.

Lemma prefix_nil h : String.prefix "" h = true.
Proof. by destruct h. Qed.

Lemma prefix_cons c n c' h :
  String.prefix (String c n) (String c' h)
  = if Ascii.ascii_dec c c' then String.prefix n h else false.
Proof. reflexivity. Qed.

Lemma prefix_spec n h :
  String.prefix n h = true ↔ ∃ post, h = n +:+ post.
Proof.
  revert h. induction n as [|c n IH]; intros h.
  - rewrite prefix_nil. split; [|done]. intros _. exists h. by rewrite append_nil.
  - destruct h as [|c' h].
    + split; [done|]. intros [post Hpost]. by rewrite append_cons in Hpost.
    + rewrite prefix_cons. destruct (Ascii.ascii_dec c c') as [->|Hne].
      * rewrite IH. split; intros [post Hpost]; exists post;
          rewrite append_cons in *; congruence.
      * split; [done|]. intros [post Hpost].
        rewrite append_cons in Hpost. congruence.
Qed.

Lemma contains_nil n : contains n "" = String.prefix n "".
Proof. unfold contains. by destruct (String.prefix n ""). Qed.

Lemma contains_cons n c h :
  contains n (String c h)
  = if String.prefix n (String c h) then true else contains n h.
Proof. reflexivity. Qed.

(** [contains] is the substring test. *)
Lemma contains_spec n h :
  contains n h = true ↔ ∃ pre post, h = pre +:+ n +:+ post.
Proof.
  induction h as [|c h IH].
  - rewrite contains_nil, prefix_spec. split.
    + intros [post Hpost]. exists "", post. by rewrite append_nil.
    + intros (pre & post & Hh). destruct pre as [|c pre].
      * exists post. by rewrite append_nil in Hh.
      * by rewrite append_cons in Hh.
  - rewrite contains_cons.
    destruct (String.prefix n (String c h)) eqn:E.
    + split; [|done]. intros _. apply prefix_spec in E as [post Hpost].
      exists "", post. by rewrite append_nil.
    + rewrite IH. split.
      * intros (pre & post & ->). exists (String c pre), post.
        by rewrite append_cons.
      * intros (pre & post & Hh). destruct pre as [|c' pre].
        -- rewrite append_nil in Hh.
           assert (String.prefix n (String c h) = true) as Hp
             by (apply prefix_spec; eauto).
           congruence.
        -- rewrite append_cons in Hh. injection Hh as _ ->. by exists pre, post.
Qed.

Lemma eq_str_spec v s : eq_str v s = true ↔ v = JStr s.
Proof.
  destruct v; simpl; try (split; [done|congruence]).
  rewrite String.eqb_eq. split; congruence.
Qed.

Lemma keep_spec a d src msg :
  get d "source" = JStr src → get d "message" = JStr msg →
  Report.keep a d = true
  ↔ (Report.source a = "*" ∨ src = Report.source a)
    ∧ (Report.code a = "" ∨ Report.get_code d = JStr (Report.code a))
    ∧ ∃ pre post, msg = pre +:+ Report.message_contains a +:+ post.
Proof.
  intros Hsrc Hmsg. unfold Report.keep.
  assert (get_default d "message" (JStr "") = JStr msg) as ->.
  { unfold get, get_default in *. by destruct (d !! "message"). }
  rewrite Hsrc. rewrite !andb_true_iff, !orb_true_iff.
  rewrite !String.eqb_eq, !eq_str_spec, contains_spec.
  split.
  - intros [[Hs Hc] Hm]. split_and!; [|done|].
    + destruct Hs as [?|[= ?]]; auto.
    + destruct Hm as [Hm|Hm]; [|done].
      rewrite Hm. by exists "", msg.
  - intros (Hs & Hc & Hm). split_and!; [|done|by right].
    destruct Hs as [?|?]; [by left|right; congruence].
Qed.

End Filters.

Section Filtered.
Context {B : Builtins}.

Lemma elem_of_kept_items a data d :
  d ∈ kept_items a data
  ↔ d ∈ Report.extract_items data
    ∧ Report.is_valid_diagnostic_item d = true ∧ Report.keep a d = true.
Proof.
  unfold kept_items, Report.valid_items.
  rewrite !list_elem_of_In, !filter_In. naive_solver.
Qed.

Lemma valid_strings d :
  Report.is_valid_diagnostic_item d = true
  ↔ ∃ src msg, get d "source" = JStr src ∧ get d "message" = JStr msg.
Proof.
  unfold Report.is_valid_diagnostic_item. rewrite andb_true_iff. split.
  - intros [Hs Hm].
    destruct (get d "source") as [| | | |src| |]; try done.
    destruct (get d "message") as [| | | |msg| |]; try done. eauto.
  - by intros (src & msg & -> & ->).
Qed.

Lemma filtered_prefix a data : Report.filtered a data `prefix_of` kept_items a data.
Proof.
  unfold Report.filtered. fold (kept_items a data).
  destruct (0 <? Report.max_items a)%Z; [apply prefix_take|done].
Qed.

End Filtered.

(** X4.  The filters of the report: a record that reaches the tables came
    from the document, has a string [source] and [message], has the
    [--source] asked for unless that is [*], the [--code] asked for unless
    that is empty, and holds [--message-contains] inside its message; with
    no cap, every record of the document that meets these conditions
    reaches the tables. *)
Theorem filtered_matches {B : Builtins} (a : Report.args) (data : json) (d : record) :
  (d ∈ Report.filtered a data →
   d ∈ Report.extract_items data
   ∧ ∃ src msg,
       get d "source" = JStr src ∧ get d "message" = JStr msg
       ∧ (Report.source a = "*" ∨ src = Report.source a)
       ∧ (Report.code a = "" ∨ Report.get_code d = JStr (Report.code a))
       ∧ ∃ pre post, msg = pre +:+ Report.message_contains a +:+ post)
  ∧ (Report.max_items a = 0%Z →
     d ∈ Report.extract_items data →
     ∀ src msg,
       get d "source" = JStr src → get d "message" = JStr msg →
       Report.source a = "*" ∨ src = Report.source a →
       Report.code a = "" ∨ Report.get_code d = JStr (Report.code a) →
       (∃ pre post, msg = pre +:+ Report.message_contains a +:+ post) →
       d ∈ Report.filtered a data).
Proof.
  split.
  - intros Hin.
    assert (d ∈ kept_items a data) as Hkept.
    { destruct (filtered_prefix a data) as [rest ->].
      apply elem_of_app. by left. }
    apply elem_of_kept_items in Hkept as (Hitem & Hvalid & Hkeep).
    split; [done|].
    apply valid_strings in Hvalid as (src & msg & Hsrc & Hmsg).
    exists src, msg. split_and!; [done|done|..];
      by apply (keep_spec a d src msg Hsrc Hmsg) in Hkeep as (? & ? & ?).
  - intros Hmax Hitem src msg Hsrc Hmsg Hs Hc Hm.
    unfold Report.filtered. rewrite Hmax. simpl.
    apply (elem_of_kept_items a data d). split_and!; [done| |].
    + apply valid_strings. eauto.
    + by apply (keep_spec a d src msg Hsrc Hmsg).
Qed.

(** X5.  The cap [--max-items]: a negative cap ends the run with result 2
    and writes no table; a cap of zero keeps every filtered record; a
    positive cap keeps the first records up to that number, in order. *)
Theorem max_items_caps {B : Builtins} (a : Report.args) (data : json) :
  ((Report.max_items a < 0)%Z →
   Report.exit_status (Report.main a data) = Report.Exit 2
   ∧ Report.out_simple (Report.main a data) = None
   ∧ Report.out_detailed (Report.main a data) = None)
  ∧ (Report.max_items a = 0%Z → Report.filtered a data = kept_items a data)
  ∧ ((0 < Report.max_items a)%Z →
     Report.filtered a data
     = take (Z.to_nat (Report.max_items a)) (kept_items a data)
     ∧ length (Report.filtered a data)
       = Nat.min (Z.to_nat (Report.max_items a)) (length (kept_items a data)))
  ∧ Report.filtered a data `prefix_of` kept_items a data.
Proof.
  split_and!.
  - intros Hneg. unfold Report.main.
    by rewrite (proj2 (Z.ltb_lt _ _) Hneg).
  - intros Hzero. unfold Report.filtered. by rewrite Hzero.
  - intros Hpos. unfold Report.filtered. fold (kept_items a data).
    rewrite (proj2 (Z.ltb_lt _ _) Hpos). split; [done|].
    apply length_take.
  - apply filtered_prefix.
Qed.

(** X6.  A sanitized cell never starts with [=], [+], [-] or [@]; to
    sanitize it again changes nothing; and an absent value gives the empty
    cell. *)
Theorem sanitize_is_safe {B : Builtins} (v : json) :
  starts_with_trigger (Report.sanitize_csv_cell v) = false
  ∧ Report.sanitize_csv_cell (JStr (Report.sanitize_csv_cell v))
    = Report.sanitize_csv_cell v
  ∧ Report.sanitize_csv_cell JNull = "".
Proof.
  assert (∀ s, starts_with_trigger (neutralized s) = false) as Hsafe.
  { intros s. unfold neutralized.
    destruct (starts_with_trigger s) eqn:E; [done|exact E]. }
  split_and!.
  - rewrite sanitize_neutralized. apply Hsafe.
  - rewrite (sanitize_neutralized (JStr _)). simpl.
    unfold neutralized at 1. by rewrite sanitize_neutralized, Hsafe.
  - done.
Qed.

Section Totals.
Context {B : Builtins}.

Lemma counter_incr_total f c :
  sum_list (snd <$> Report.counter_incr f c) = S (sum_list (snd <$> c)).
Proof.
  induction c as [|[k n] c IH]; [done|]. cbn [Report.counter_incr].
  destruct (String.eqb k f); csimpl; [done|]. rewrite IH. lia.
Qed.

Lemma tally_total fs c :
  sum_list (snd <$> fold_left (fun c f => Report.counter_incr f c) fs c)
  = sum_list (snd <$> c) + length fs.
Proof.
  revert c. induction fs as [|f fs IH]; intros c; csimpl; [lia|].
  rewrite IH, counter_incr_total. lia.
Qed.

Lemma insert_desc_total x l :
  sum_list (snd <$> Report.insert_desc x l) = snd x + sum_list (snd <$> l).
Proof.
  induction l as [|y l IH]; [done|]. cbn [Report.insert_desc].
  destruct (Nat.ltb (snd x) (snd y)); csimpl; [|done]. rewrite IH. lia.
Qed.

Lemma most_common_total c :
  sum_list (snd <$> Report.most_common c) = sum_list (snd <$> c).
Proof.
  induction c as [|x c IH]; [done|].
  change (Report.most_common (x :: c))
    with (Report.insert_desc x (Report.most_common c)).
  by rewrite insert_desc_total, IH.
Qed.

Lemma groups_keys fs : fst <$> groups fs = first_seen fs.
Proof.
  unfold groups. induction (first_seen fs) as [|f l IH]; [done|].
  cbn [map]. rewrite fmap_cons. by rewrite IH.
Qed.

Lemma occurrences_pos f fs : f ∈ fs → 0 < occurrences f fs.
Proof.
  unfold occurrences. induction fs as [|g fs IH]; [by intros ?%elem_of_nil|].
  rewrite filter_cons. destruct (decide (g = f)) as [->|Hne]; simpl; [lia|].
  intros [?|Hin]%elem_of_cons; [congruence|by apply IH].
Qed.

Lemma report_files_nonempty l f : f ∈ report_files l → f ≠ "".
Proof. unfold report_files. by intros [? _]%list_elem_of_filter. Qed.

Lemma report_files_length l : length (report_files l) <= length l.
Proof.
  unfold report_files. etrans; [apply length_filter|]. by rewrite length_map.
Qed.

End Totals.

(** X7.  The counts of the per-file table: each file has one row, no row is
    for the empty file, every count is at least one and is the number of
    filtered records of that file, and the counts add up to the number of
    filtered records that have a file, which is at most the number of rows
    of the detailed table. *)
Theorem per_file_counts_total {B : Builtins} (a : Report.args) (data : json) :
  let fl := Report.filtered a data in
  let ranked := Report.most_common (Report.per_file fl) in
  NoDup (fst <$> ranked)
  ∧ (∀ f n, (f, n) ∈ ranked →
            f ≠ "" ∧ 0 < n ∧ n = occurrences f (report_files fl))
  ∧ sum_list (snd <$> ranked) = length (report_files fl)
  ∧ (length (report_files fl) <= length fl)%nat.
Proof.
  intros fl ranked. subst ranked. split_and!.
  - rewrite (most_common_perm (Report.per_file fl)).
    rewrite per_file_groups, groups_keys. apply first_seen_NoDup.
  - intros f n. rewrite (most_common_perm (Report.per_file fl)).
    rewrite per_file_groups. intros [Hin ->]%elem_of_groups.
    split_and!; [by eapply report_files_nonempty|by apply occurrences_pos|done].
  - rewrite most_common_total. unfold Report.per_file.
    by rewrite count_file_files, tally_total.
  - apply report_files_length.
Qed.

(** ** The two scripts on one record *)

Section Agreement.
Context {B : Builtins}.

Lemma key_components d :
  key_file d = Merge.get_file d
  ∧ key_code d = Merge.get_code d
  ∧ key_message d = str (py_or (get d "message") (JStr "")).
Proof.
  unfold key_file, key_code, key_message, Merge.diag_key.
  by destruct (Merge.get_pos d).
Qed.

Lemma merge_code_of_report d :
  Merge.get_code d = str (py_or (Report.get_code d) (JStr "")).
Proof.
  unfold Merge.get_code, Report.get_code.
  destruct (get d "code") as [| | | |s| |code]; try done.
  unfold py_or. simpl. by destruct s.
Qed.

Lemma int_overflow_infinite v : int v = Raise OverflowError → is_infinite v = true.
Proof.
  destruct v as [| | |f|s| |]; simpl; try done.
  - by destruct f.
  - by destruct (py_int_of_str s).
Qed.

Lemma to_int_or_none_finite v :
  is_infinite v = false → Report.to_int_or_none v = Ok (coerced v).
Proof.
  intros Hfin. apply to_int_or_none_coerced.
  intros Hover%int_overflow_infinite. congruence.
Qed.

Lemma get_pos_finite d :
  finite_position d = true →
  ∃ l c, Report.get_pos d = Ok (l, c).
Proof.
  unfold finite_position. rewrite !andb_true_iff, !negb_true_iff.
  intros [[[H1 H2] H3] H4]. rewrite report_get_pos_fields.
  unfold coerce_pair.
  destruct (both_present (direct_position d));
    rewrite !to_int_or_none_finite by done; simpl; eauto.
Qed.

Lemma pos_cell_encodable p : Report.encodable_cell (Report.pos_cell p) = true.
Proof. by destruct p. Qed.

Lemma detailed_row_clean a d :
  utf8_encodable (Report.day a) = true →
  utf8_encodable (Report.version a) = true →
  finite_position d = true → encodable_record d = true →
  ∃ row, Report.detailed_row a d = Ok row.
Proof.
  intros Hday Hver Hfin Henc.
  destruct (get_pos_finite d Hfin) as (l & c & Hpos).
  unfold encodable_record, cell_text in Henc.
  apply andb_prop in Henc as [Henc Hmsg].
  apply andb_prop in Henc as [Henc Hsrc].
  apply andb_prop in Henc as [Hfile Hcode].
  unfold Report.detailed_row. rewrite Hpos. cbn [bind].
  rewrite writerow_encodable. cbn [forallb Report.encodable_cell].
  rewrite !pos_cell_encodable, !sanitize_neutralized, !neutralized_encodable.
  cbn [is_none str]. rewrite Hday, Hver, Hfile, Hcode, Hsrc, Hmsg.
  by eexists.
Qed.

Lemma write_rows_clean a l :
  utf8_encodable (Report.day a) = true →
  utf8_encodable (Report.version a) = true →
  Forall (fun d => finite_position d = true ∧ encodable_record d = true) l →
  snd (Report.write_rows a l) = None.
Proof.
  intros Hday Hver. induction 1 as [|d l [Hfin Henc] _ IH]; [done|].
  cbn [Report.write_rows].
  destruct (detailed_row_clean a d Hday Hver Hfin Henc) as [row ->].
  destruct (Report.write_rows a l). by simpl in *.
Qed.

Lemma elem_of_report_files l f :
  f ∈ report_files l ↔ f ≠ "" ∧ ∃ d, d ∈ l ∧ Report.get_file d = Some f.
Proof.
  unfold report_files.
  rewrite list_elem_of_filter, list_elem_of_In, in_map_iff.
  split.
  - intros (Hne & d & Hd & Hin). split; [done|].
    exists d. split; [by apply list_elem_of_In|].
    destruct (Report.get_file d); simpl in *; by subst.
  - intros (Hne & d & Hin & Hd). split; [done|].
    exists d. split; [by rewrite Hd|by apply list_elem_of_In].
Qed.

End Agreement.

(** X8.  What a detailed row shows of a record is what the merge compared:
    for a record that passes the validity gate, the file, code and message
    cells of its row are the file, code and message components of its
    canonical key, sanitized. *)
Theorem row_shows_key_components {B : Builtins}
    (a : Report.args) (d : record) (row : list Report.cell) :
  Report.is_valid_diagnostic_item d = true →
  Report.detailed_row a d = Ok row →
  row !! 2 = Some (Report.CStr (neutralized (key_file d)))
  ∧ row !! 5 = Some (Report.CStr (neutralized (key_code d)))
  ∧ row !! 7 = Some (Report.CStr (neutralized (key_message d))).
Proof.
  intros (src & msg & Hsrc & Hmsg)%valid_strings Hrow.
  destruct (key_components d) as (-> & -> & ->).
  apply detailed_row_ok in Hrow as (l & c & _ & ->). cbn [lookup list_lookup].
  rewrite !sanitize_neutralized. cbn [is_none]. rewrite or_empty_not_none.
  split_and!.
  - by rewrite merge_get_file_value, report_get_file_value;
      destruct (file_value d).
  - by rewrite merge_code_of_report.
  - assert (get_default d "message" (JStr "") = JStr msg) as ->.
    { unfold get, get_default in *. by destruct (d !! "message"). }
    rewrite Hmsg. unfold py_or. simpl. by destruct msg.
Qed.

(** The row of the record of the second scenario. *)
Lemma row_shows_key_components_witness :
  Report.is_valid_diagnostic_item formula_record = true
  ∧ Report.detailed_row (B:=Sample.builtins) day_version_args formula_record
    = Ok formula_row
  ∧ formula_row !! 2
    = Some (Report.CStr (neutralized (key_file (B:=Sample.builtins) formula_record)))
  ∧ formula_row !! 5
    = Some (Report.CStr (neutralized (key_code (B:=Sample.builtins) formula_record)))
  ∧ formula_row !! 7
    = Some (Report.CStr (neutralized (key_message (B:=Sample.builtins) formula_record))).
Proof.
  split; [reflexivity|]. split; [by vm_compute|].
  apply (row_shows_key_components (B:=Sample.builtins)
           day_version_args formula_record); [reflexivity|by vm_compute].
Defined.

(** X9.  Where the line and column are integers, the two scripts agree on
    the position: the report row holds the two integers and the canonical
    key their decimal texts, whether they stand in the direct fields or
    under [range.start]. *)
Theorem integer_positions_agree {B : Builtins} (d : record) (l c : Z) :
  direct_position d = (JInt l, JInt c)
  ∨ (both_present (direct_position d) = false
     ∧ range_usable d = true
     ∧ range_position d = (JInt l, JInt c)) →
  Report.get_pos d = Ok (Some l, Some c)
  ∧ Merge.get_pos d = (pretty l, pretty c).
Proof.
  rewrite report_get_pos_fields, merge_get_pos_fields.
  intros [Hd|(Hboth & Husable & Hr)].
  - by rewrite Hd.
  - by rewrite Hboth, Husable, Hr.
Qed.

(** The position of [direct_shape_record]. *)
Lemma integer_positions_agree_witness :
  direct_position direct_shape_record = (JInt 3, JInt 7)
  ∧ Report.get_pos (B:=Sample.builtins) direct_shape_record
    = Ok (Some 3%Z, Some 7%Z)
  ∧ Merge.get_pos (B:=Sample.builtins) direct_shape_record = ("3", "7").
Proof.
  split; [reflexivity|].
  apply (integer_positions_agree (B:=Sample.builtins) direct_shape_record 3 7).
  left. reflexivity.
Defined.

(** X10.  The report ends normally on every document whose records hold
    neither an infinite float as a position nor a lone surrogate in a text
    that is written: with a cap that is not negative and a day and a
    version that encode, whatever else the position fields hold (texts,
    lists, booleans, NaN), the run ends with result 0, the per-file table
    has the whole ranking and the detailed table one row per filtered
    record. *)
Theorem report_completes {B : Builtins} (a : Report.args) (data : json) :
  (0 <= Report.max_items a)%Z →
  utf8_encodable (Report.day a) = true →
  utf8_encodable (Report.version a) = true →
  (∀ d, d ∈ Report.extract_items data →
        finite_position d = true ∧ encodable_record d = true) →
  Report.exit_status (Report.main a data) = Report.Exit 0
  ∧ Report.out_simple (Report.main a data)
    = Some (Report.simple_header
            :: map Report.simple_row
                 (Report.most_common (Report.per_file (Report.filtered a data))))
  ∧ ∃ rows, Report.out_detailed (Report.main a data)
            = Some (Report.detailed_header :: rows)
            ∧ length rows = length (Report.filtered a data).
Proof.
  intros Hmax Hday Hver Hclean.
  assert ((Report.max_items a <? 0)%Z = false) as Hmax' by lia.
  destruct (main_tables a data Hmax') as (Hsim & Hdet & Hst).
  assert (∀ d, d ∈ Report.filtered a data →
               finite_position d = true ∧ encodable_record d = true) as Hfl.
  { intros d Hd. apply Hclean. by apply (filtered_matches a data d). }
  assert (snd (Report.write_simple
                 (Report.most_common (Report.per_file (Report.filtered a data))))
          = None) as Hws.
  { apply write_simple_encodable, Forall_forall. intros [f n] Hin. simpl.
    rewrite (most_common_perm (Report.per_file (Report.filtered a data))) in Hin.
    rewrite per_file_groups in Hin. apply elem_of_groups in Hin as [Hin _].
    apply elem_of_report_files in Hin as (_ & d & Hd & Hfile).
    destruct (Hfl d Hd) as [_ Henc]. unfold encodable_record in Henc.
    rewrite Hfile in Henc. simpl in Henc.
    by destruct (utf8_encodable f). }
  assert (snd (Report.write_rows a (Report.filtered a data)) = None) as Hwd.
  { apply write_rows_clean; [done|done|]. by apply Forall_forall. }
  rewrite Hst, Hsim, Hdet, Hws, Hwd. split_and!; [done| |].
  - by rewrite write_simple_complete.
  - eexists. split; [done|]. by apply write_rows_complete.
Qed.

(** The run of the test of malformed positions. *)
Lemma report_completes_witness :
  (0 <= Report.max_items day_version_args)%Z
  ∧ utf8_encodable (Report.day day_version_args) = true
  ∧ utf8_encodable (Report.version day_version_args) = true
  ∧ forallb (fun d => finite_position d
                      && encodable_record (B:=Sample.builtins) d)
      (Report.extract_items malformed_positions) = true
  ∧ Report.exit_status
      (Report.main (B:=Sample.builtins) day_version_args malformed_positions)
    = Report.Exit 0.
Proof.
  assert (forallb (fun d => finite_position d
                            && encodable_record (B:=Sample.builtins) d)
            (Report.extract_items malformed_positions) = true) as Hall.
  { vm_compute. reflexivity. }
  split; [done|]. split; [reflexivity|]. split; [reflexivity|].
  split; [exact Hall|].
  apply (report_completes (B:=Sample.builtins) day_version_args malformed_positions);
    [done|reflexivity|reflexivity|].
  intros d Hd%list_elem_of_In.
  apply andb_prop. revert d Hd. by apply forallb_forall.
Defined.

Section TopItems.

Lemma sorted_take n (l : list (string * nat)) :
  StronglySorted at_least l → StronglySorted at_least (take n l).
Proof.
  intros Hs. revert n. induction Hs as [|x l Hs IH Hx]; intros [|n]; simpl;
    try constructor; [apply IH|].
  apply Forall_take, Hx.
Qed.

Lemma sorted_app_inv (l1 l2 : list (string * nat)) x y :
  StronglySorted at_least (l1 ++ l2) → x ∈ l1 → y ∈ l2 → at_least x y.
Proof.
  induction l1 as [|z l1 IH]; simpl; intros Hs Hx Hy;
    [by apply elem_of_nil in Hx|].
  apply StronglySorted_inv in Hs as [Hs Hz].
  apply elem_of_cons in Hx as [->|Hx]; [|by apply IH].
  rewrite Forall_forall in Hz. apply Hz, elem_of_app. by right.
Qed.

Lemma relabel_counts (l : list (string * nat)) :
  snd <$> map (fun '(k, v) => (if String.eqb k "" then "(empty)" else k, v)) l
  = snd <$> l.
Proof.
  induction l as [|[k v] l IH]; [done|]. cbn [map]. by rewrite !fmap_cons, IH.
Qed.

End TopItems.

(** X11.  [top_items] gives at most [top_n] entries, all of them when the
    counter has no more; their counts are the first counts of the counter
    ranked by descending count, so that no entry left out has a larger
    count than an entry kept; no label is empty, an entry of the empty key
    being shown as [(empty)]; and every entry comes from the counter. *)
Theorem top_items_ranked (counter : list (string * nat)) (top_n : Z) :
  let n := Z.to_nat top_n in
  let top := Charts.top_items counter top_n in
  length top = Nat.min n (length counter)
  ∧ snd <$> top = take n (snd <$> Report.most_common counter)
  ∧ (∀ v w, v ∈ (snd <$> top) →
            w ∈ drop n (snd <$> Report.most_common counter) → w <= v)%nat
  ∧ (∀ k v, (k, v) ∈ top → k ≠ "")
  ∧ (∀ k v, (k, v) ∈ top →
            (k, v) ∈ counter ∨ (k = "(empty)" ∧ ("", v) ∈ counter)).
Proof.
  intros n top. subst top. unfold Charts.top_items. fold n. split_and!.
  - rewrite length_map, length_take.
    by rewrite (Permutation_length (most_common_perm counter)).
  - by rewrite relabel_counts, fmap_take.
  - intros v w. rewrite relabel_counts, <-fmap_drop.
    intros ([k1 v1] & -> & Hin1)%list_elem_of_fmap.
    intros ([k2 v2] & -> & Hin2)%list_elem_of_fmap.
    pose proof (most_common_sorted counter) as Hs.
    rewrite <-(take_drop n (Report.most_common counter)) in Hs.
    apply (sorted_app_inv _ _ _ _ Hs Hin1 Hin2).
  - intros k v Hin. apply list_elem_of_In, in_map_iff in Hin as ([k' v'] & Heq & _).
    injection Heq as <- _. by destruct (String.eqb_spec k' "").
  - intros k v Hin. apply list_elem_of_In, in_map_iff in Hin as ([k' v'] & Heq & Hin).
    injection Heq as <- <-.
    apply list_elem_of_In in Hin.
    assert ((k', v') ∈ counter) as Hc.
    { rewrite <-(most_common_perm counter). by eapply subseteq_take. }
    destruct (String.eqb_spec k' "") as [->|Hne]; [by right|by left].
Qed.

(** ** Merging more documents *)

Section Incremental.
Context {B : Builtins}.

Lemma dedup_loop_filter (s1 s2 : gset Merge.key) (l : list record) :
  Merge.dedup_loop (s1 ∪ s2) [] l
  = filter (fun d => Merge.diag_key d ∉ s1) (Merge.dedup_loop s2 [] l).
Proof.
  revert s2. induction l as [|d l IH]; intros s2; [done|].
  destruct (decide (Merge.diag_key d ∈ s2)) as [H2|H2].
  - rewrite !dedup_loop_cons_seen by set_solver. apply IH.
  - rewrite (dedup_loop_cons_new s2) by done. rewrite filter_cons.
    destruct (decide (Merge.diag_key d ∉ s1)) as [H1|H1].
    + rewrite dedup_loop_cons_new by set_solver. f_equal.
      rewrite <-IH. f_equal. set_solver.
    + apply dec_stable in H1.
      rewrite dedup_loop_cons_seen by set_solver.
      rewrite <-IH. f_equal. set_solver.
Qed.

End Incremental.

(** X12.  Merging more records extends the result: the deduplication of a
    sequence followed by another is the deduplication of the first,
    followed by the records of the deduplicated second whose key the first
    does not hold.  In particular the records of the first documents come
    out first and unchanged. *)
Theorem dedup_extends {B : Builtins} (l1 l2 : list record) :
  Merge.dedup (l1 ++ l2)
  = Merge.dedup l1
    ++ filter (fun d => Merge.diag_key d ∉ keys_of l1) (Merge.dedup l2)
  ∧ Merge.dedup l1 `prefix_of` Merge.dedup (l1 ++ l2).
Proof.
  assert (Merge.dedup (l1 ++ l2)
          = Merge.dedup l1
            ++ filter (fun d => Merge.diag_key d ∉ keys_of l1) (Merge.dedup l2))
    as Heq.
  { unfold Merge.dedup. by rewrite dedup_loop_app, dedup_loop_filter. }
  split; [done|]. rewrite Heq. by eexists.
Qed.

